(** * Output sections of the WebAssembly linker (wasm/OutputSections.h)

    A shallow embedding of the section classes declared in
    [wasm/OutputSections.h]: the abstract [OutputSection], the
    [SyntheticSection] with its in-memory body stream, the [CodeSection],
    [DataSection] and [CustomSection] that are fed from input chunks, and the
    [RelocSection] built on top of [SyntheticSection].

    Conventions.
    - [std::string] used as a byte container ([Header], [Body], [NameData])
      is a [list byte]; [Name] is a [string].
    - [size_t] and [uint32_t] values are integers in [Z]; arithmetic the code
      performs on them wraps ([wrap64], [wrap32]).
    - [assert] is modelled with assertions enabled: a failed assertion aborts
      the call with [AssertionFailed].  The output buffer [uint8_t *Buf] is a
      [list byte]; a [memcpy] that leaves it has no defined behaviour in
      the source and is marked [OutOfBounds]: nothing is claimed about what
      the code does there.
    - [log(...)] calls only produce diagnostics and are not part of any
      section's state; they are left out.
    - Method bodies that live in OutputSections.cpp / WriterUtils.cpp are not
      part of the header; each such definition says so in its comment. *)

From Stdlib Require Import ZArith List String Lia Bool.
From stdpp Require Import base list.
From coqutil Require Import Byte.
Import ListNotations.
Local Open Scope Z_scope.

(** ** Outcomes of a call *)

Inductive failure : Set :=
| AssertionFailed   (* assert(...) did not hold *)
| OutOfBounds.      (* memcpy outside the destination buffer: undefined in the source *)

Inductive result (A : Type) : Type :=
| Ok (a : A)
| Abort (f : failure).
Arguments Ok {A} a.
Arguments Abort {A} f.

#[global] Instance result_ret : MRet result := fun A a => Ok a.

#[global] Instance result_bind : MBind result := fun A B k r =>
  match r with
  | Ok a => k a
  | Abort f => Abort f
  end.

Definition assert (c : bool) : result unit :=
  if c then Ok tt else Abort AssertionFailed.

(** ** Machine integers and byte strings *)

Abbreviation bytes := (list byte).

Definition wrap32 (z : Z) : Z := z mod 2 ^ 32.
Definition wrap64 (z : Z) : Z := z mod 2 ^ 64.

(** [std::string::size()] *)
Definition size (s : bytes) : Z := Z.of_nat (length s).

(** ** ULEB128 (llvm/Support/LEB128.h)

    [encodeULEB128] is LLVM's
    [do { Byte = Value & 0x7f; Value >>= 7; if (Value != 0) Byte |= 0x80;
          OS << char(Byte); } while (Value != 0);]
    on a [uint64_t]; ten rounds exhaust 64 bits, which [ULEB_ROUNDS] gives
    as fuel. *)

Fixpoint encodeULEB128_loop (fuel : nat) (Value : Z) : bytes :=
  match fuel with
  | O => []
  | S fuel' =>
      let Byte := Z.land Value 0x7f in
      let Value' := Z.shiftr Value 7 in
      if Value' =? 0
      then [byte.of_Z Byte]
      else byte.of_Z (Z.lor Byte 0x80) :: encodeULEB128_loop fuel' Value'
  end.

Definition ULEB_ROUNDS : nat := 10.

Definition encodeULEB128 (Value : Z) : bytes :=
  encodeULEB128_loop ULEB_ROUNDS (wrap64 Value).

(** The reader's side: groups of seven bits, least significant first, the
    high bit of a byte announcing another group. *)
Fixpoint decodeULEB128 (p : bytes) : option (Z * bytes) :=
  match p with
  | [] => None
  | b :: rest =>
      let v := byte.unsigned b in
      if Z.testbit v 7
      then match decodeULEB128 rest with
           | Some (hi, rest') => Some (Z.lor (Z.land v 0x7f) (Z.shiftl hi 7), rest')
           | None => None
           end
      else Some (v, rest)
  end.


(** ** Section type tags (llvm/BinaryFormat/Wasm.h) *)

Definition WASM_SEC_CUSTOM : Z := 0.
Definition WASM_SEC_CODE : Z := 10.
Definition WASM_SEC_DATA : Z := 11.

(** ** The output buffer *)

(** [memcpy(Buf + dst, src.data(), src.size())] on a buffer of known extent. *)
Definition memcpy (Buf : bytes) (dst : Z) (src : bytes) : result bytes :=
  if (0 <=? dst) && (dst + size src <=? size Buf)
  then Ok (take (Z.to_nat dst) Buf ++ src ++ drop (Z.to_nat dst + length src) Buf)
  else Abort OutOfBounds.

(** ** Streams (llvm/Support/raw_ostream.h)

    A [raw_string_ostream] appends to the [std::string] it was built over.
    It may hold back bytes in its buffer; [flush()] hands all of them on.
    How many bytes a [write] hands on by itself is the library's choice
    (none while the data fits the buffer, everything for an unbuffered
    stream): [buffer_policy buf data] is that number, counted from the
    front of [buf ++ data]. *)

Class BufferPolicy := buffer_policy : bytes -> bytes -> nat.

Definition Unbuffered : BufferPolicy := fun buf data => (length buf + length data)%nat.
Definition FullyBuffered : BufferPolicy := fun _ _ => 0%nat.

Module raw_ostream.

Record t := mk {
  str : bytes;      (* the string written to *)
  OutBuf : bytes    (* accepted, not yet appended to [str] *)
}.

Definition write {policy : BufferPolicy} (data : bytes) (OS : t) : t :=
  let pending := OutBuf OS ++ data in
  let n := buffer_policy (OutBuf OS) data in
  {| str := str OS ++ take n pending; OutBuf := drop n pending |}.

Definition flush (OS : t) : t :=
  {| str := str OS ++ OutBuf OS; OutBuf := [] |}.

(** Everything written so far, whether handed on or still buffered. *)
Definition contents (OS : t) : bytes := str OS ++ OutBuf OS.

End raw_ostream.

(** ** Writer helpers (WriterUtils.h) *)

(** Modelled from the spec: [writeUleb128] is defined in WriterUtils.cpp,
    which is not at hand; sizes, counts and indices are written as unsigned
    variable-length integers (base 128, high bit for continuation). *)
Definition writeUleb128 {policy : BufferPolicy} (OS : raw_ostream.t) (Number : Z) : raw_ostream.t :=
  raw_ostream.write (encodeULEB128 Number) OS.

(** Modelled from the spec: [writeStr] is defined in WriterUtils.cpp, which
    is not at hand; a name is written as a length-prefixed string,
    [[name_len: varint][name bytes]]. *)
Definition writeStr {policy : BufferPolicy} (OS : raw_ostream.t) (String : string) : raw_ostream.t :=
  let OS := writeUleb128 OS (size (list_byte_of_string String)) in
  raw_ostream.write (list_byte_of_string String) OS.

(** [std::string::empty()] *)
Definition empty (s : string) : bool := String.eqb s "".

(** ** class OutputSection *)

Module OutputSection.

Record t := mk {
  Header : bytes;
  Type_ : Z;        (* uint32_t Type *)
  Name : string;
  Offset : Z        (* size_t Offset = 0 *)
}.

Definition new (Type_ : Z) (Name : string) : t :=
  {| Header := []; Type_ := Type_; Name := Name; Offset := 0 |}.

(** [log(...); Offset = NewOffset;] *)
Definition setOffset (NewOffset : Z) (s : t) : t :=
  {| Header := Header s; Type_ := Type_ s; Name := Name s; Offset := NewOffset |}.

(** Modelled from the spec: [createHeader] is only declared in the header;
    its body is in OutputSections.cpp, which is not at hand.  The header
    codec produces one tag byte followed by the body length as an unsigned
    variable-length integer, and stores the result in the section. *)
Definition createHeader (BodySize : Z) (s : t) : t :=
  {| Header := byte.of_Z (Type_ s) :: encodeULEB128 BodySize;
     Type_ := Type_ s; Name := Name s; Offset := Offset s |}.

(** The defaults of the two relocation methods. *)
Definition numRelocations (s : t) : Z := 0.
Definition writeRelocations (OS : raw_ostream.t) (s : t) : raw_ostream.t := OS.

End OutputSection.

(** Reading a header back: the tag byte, then the body length. *)
Definition decodeHeader (Header : bytes) : option (Z * Z) :=
  match Header with
  | [] => None
  | tag :: rest =>
      match decodeULEB128 rest with
      | Some (BodySize, []) => Some (byte.unsigned tag, BodySize)
      | _ => None
      end
  end.

(** ** class SyntheticSection *)

Module SyntheticSection.

Record t := mk {
  base : OutputSection.t;
  Body : bytes;
  BodyOutputStream : bytes   (* buffer of the stream built over [Body] *)
}.

(** [getStream()]: the stream and the string behind it. *)
Definition getStream (s : t) : raw_ostream.t :=
  {| raw_ostream.str := Body s; raw_ostream.OutBuf := BodyOutputStream s |}.

Definition setStream (OS : raw_ostream.t) (s : t) : t :=
  {| base := base s; Body := raw_ostream.str OS;
     BodyOutputStream := raw_ostream.OutBuf OS |}.

Definition setBase (b : OutputSection.t) (s : t) : t :=
  {| base := b; Body := Body s; BodyOutputStream := BodyOutputStream s |}.

Definition new {policy : BufferPolicy} (Type_ : Z) (Name : string) : t :=
  let s := {| base := OutputSection.new Type_ Name; Body := [];
              BodyOutputStream := [] |} in
  if negb (empty Name)
  then setStream (writeStr (getStream s) Name) s
  else s.

(** [writeTo] is not [const]: it returns the section along with the
    buffer. *)
Definition writeTo (Buf : bytes) (s : t) : result (t * bytes) :=
  let Offset := OutputSection.Offset (base s) in
  let Header := OutputSection.Header (base s) in
  _ ← assert (negb (Offset =? 0));
  Buf ← memcpy Buf Offset Header;
  Buf ← memcpy Buf (Offset + size Header) (Body s);
  mret (s, Buf).

Definition getSize (s : t) : result Z :=
  Ok (wrap64 (size (OutputSection.Header (base s)) + size (Body s))).

(** [virtual void writeBody() {}] *)
Definition writeBody (s : t) : t := s.

(** [writeBody] is virtual: the override in force is an argument. *)
Definition finalizeContents (writeBody : t -> t) (s : t) : t :=
  let s := writeBody s in
  let s := setStream (raw_ostream.flush (getStream s)) s in
  setBase (OutputSection.createHeader (size (Body s)) (base s)) s.

End SyntheticSection.

(** ** Input fragments (InputChunks.h) *)

(** Modelled from the spec: the relocation record type is not declared in
    this header.  A record is, logically, the offset to patch, the kind of
    patch, and the symbol or index it refers to. *)
Record WasmRelocation := mkWasmRelocation {
  reloc_Offset : Z;
  reloc_Type : Z;
  reloc_Index : Z
}.

(** The byte layout of one relocation record is fixed by the container
    format and is not decided in this header. *)
Class RelocFormat := encodeReloc : WasmRelocation -> bytes.

Module InputChunk.

(** Modelled from the spec: InputChunks.h is not at hand.  A resolved
    function or input-section fragment exposes its encoded bytes, their
    number, and its relocation records with offsets local to the fragment. *)
Record t := mk {
  data : bytes;
  Relocations : list WasmRelocation
}.

(** Modelled from the spec: InputChunks.h is not at hand; the byte size of
    the fragment. *)
Definition getSize (c : t) : Z := size (data c).

(** Modelled from the spec: InputChunks.h is not at hand; the fragment's
    own relocation count. *)
Definition getNumRelocations (c : t) : Z := Z.of_nat (length (Relocations c)).

End InputChunk.

Module OutputSegment.

(** Modelled from the spec: the output segment class is only forward
    declared.  A segment contributes its own encoded header followed by its
    raw bytes, and forwards relocation records like the other fragments. *)
Record t := mk {
  Header : bytes;
  data : bytes;
  Relocations : list WasmRelocation
}.

Definition contribution (s : t) : bytes := Header s ++ data s.

(** Modelled from the spec: the output segment class is only forward
    declared; a segment's size covers what it contributes to the body. *)
Definition getSize (s : t) : Z := size (contribution s).

(** A segment seen as a fragment. *)
Definition chunk (s : t) : InputChunk.t :=
  {| InputChunk.data := contribution s; InputChunk.Relocations := Relocations s |}.

End OutputSegment.

(** *** Loops shared by the sections that are fed from fragments

    The methods of the code, data and custom sections that walk the
    fragment list are defined in OutputSections.cpp, which is not at hand;
    these are the loops their descriptions share. *)

(** Modelled from the spec: OutputSections.cpp is not at hand.  The sizes
    of the fragments are summed in list order, in a [size_t]. *)
Definition totalSize (Chunks : list InputChunk.t) : Z :=
  fold_left (fun Size c => wrap64 (Size + InputChunk.getSize c)) Chunks 0.

(** Modelled from the spec: OutputSections.cpp is not at hand.  The
    relocation counts of the fragments are summed, in a [uint32_t]. *)
Definition totalRelocations (Chunks : list InputChunk.t) : Z :=
  fold_left (fun Count c => wrap32 (Count + InputChunk.getNumRelocations c)) Chunks 0.

(** The bytes of the fragments, one after the other. *)
Definition payload (Chunks : list InputChunk.t) : bytes :=
  concat (map InputChunk.data Chunks).

(** Modelled from the spec: OutputSections.cpp is not at hand.  Each
    fragment's bytes are copied to [Buf] contiguously at increasing
    offsets, the first at [pos]. *)
Fixpoint writeChunks (Buf : bytes) (pos : Z) (Chunks : list InputChunk.t) : result bytes :=
  match Chunks with
  | [] => Ok Buf
  | c :: rest =>
      Buf ← memcpy Buf pos (InputChunk.data c);
      writeChunks Buf (pos + InputChunk.getSize c) rest
  end.

(** Modelled from the spec: OutputSections.cpp is not at hand.  The records
    of one fragment are forwarded to the stream, their offsets being the
    local offset plus [start], where the fragment starts. *)
Definition writeChunkRelocations {policy : BufferPolicy} {format : RelocFormat}
    (OS : raw_ostream.t) (start : Z) (c : InputChunk.t) : raw_ostream.t :=
  fold_left
    (fun OS r =>
       raw_ostream.write
         (encodeReloc {| reloc_Offset := reloc_Offset r + start;
                         reloc_Type := reloc_Type r;
                         reloc_Index := reloc_Index r |}) OS)
    (InputChunk.Relocations c) OS.

(** Modelled from the spec: OutputSections.cpp is not at hand.  The records
    of all fragments are forwarded in fragment order, each fragment
    starting where its predecessor ends, the first at [start]. *)
Fixpoint writeAllRelocations {policy : BufferPolicy} {format : RelocFormat}
    (OS : raw_ostream.t) (start : Z) (Chunks : list InputChunk.t) : raw_ostream.t :=
  match Chunks with
  | [] => OS
  | c :: rest =>
      writeAllRelocations (writeChunkRelocations OS start c)
                          (start + InputChunk.getSize c) rest
  end.

(** Modelled from the spec: the header is populated only after finalize,
    so a populated header tells that finalize has completed. *)
Definition headerCreated (s : OutputSection.t) : bool :=
  negb (size (OutputSection.Header s) =? 0).

(** ** class CodeSection *)

Module CodeSection.

Record t := mk {
  base : OutputSection.t;
  Functions : list InputChunk.t;
  CodeSectionHeader : bytes;
  BodySize : Z                 (* size_t BodySize = 0 *)
}.

Definition new (Functions : list InputChunk.t) : t :=
  {| base := OutputSection.new WASM_SEC_CODE ""; Functions := Functions;
     CodeSectionHeader := []; BodySize := 0 |}.

Definition setBase (b : OutputSection.t) (s : t) : t :=
  {| base := b; Functions := Functions s;
     CodeSectionHeader := CodeSectionHeader s; BodySize := BodySize s |}.

Definition getSize (s : t) : result Z :=
  _ ← assert (negb (BodySize s =? 0));
  mret (wrap64 (size (OutputSection.Header (base s)) + BodySize s)).

(** The bytes that follow the header in the output. *)
Definition body (s : t) : bytes := payload (Functions s).

(** Modelled from the spec: [CodeSection::finalizeContents] is defined in
    OutputSections.cpp, which is not at hand.  The function list is
    walked in the given order, the sizes are summed to the body size,
    which is cached, and the header is computed from it. *)
Definition finalizeContents (s : t) : t :=
  let BodySize := totalSize (Functions s) in
  {| base := OutputSection.createHeader BodySize (base s);
     Functions := Functions s;
     CodeSectionHeader := CodeSectionHeader s;
     BodySize := BodySize |}.

(** Modelled from the spec: [CodeSection::writeTo] is defined in
    OutputSections.cpp, which is not at hand.  Writing requires an
    assigned (non-zero) offset and a completed finalize, and fails as a
    programming error otherwise; it writes the section header, then each
    function's bytes contiguously at increasing offsets. *)
Definition writeTo (Buf : bytes) (s : t) : result (t * bytes) :=
  let Offset := OutputSection.Offset (base s) in
  let Header := OutputSection.Header (base s) in
  _ ← assert (negb (Offset =? 0));
  _ ← assert (headerCreated (base s));
  Buf ← memcpy Buf Offset Header;
  Buf ← writeChunks Buf (Offset + size Header) (Functions s);
  mret (s, Buf).

(** Modelled from the spec: defined in OutputSections.cpp, which is not
    at hand.  The count is the sum of the fragments' own counts. *)
Definition numRelocations (s : t) : Z := totalRelocations (Functions s).

(** Modelled from the spec: defined in OutputSections.cpp, which is not
    at hand.  Each function's records are forwarded in function order,
    their offsets being the local offset plus the function's cumulative
    start within the section body. *)
Definition writeRelocations {policy : BufferPolicy} {format : RelocFormat}
    (OS : raw_ostream.t) (s : t) : raw_ostream.t :=
  writeAllRelocations OS 0 (Functions s).

End CodeSection.

(** ** class DataSection *)

Module DataSection.

Record t := mk {
  base : OutputSection.t;
  Segments : list OutputSegment.t;
  DataSectionHeader : bytes;
  BodySize : Z                 (* size_t BodySize = 0 *)
}.

Definition new (Segments : list OutputSegment.t) : t :=
  {| base := OutputSection.new WASM_SEC_DATA ""; Segments := Segments;
     DataSectionHeader := []; BodySize := 0 |}.

Definition setBase (b : OutputSection.t) (s : t) : t :=
  {| base := b; Segments := Segments s;
     DataSectionHeader := DataSectionHeader s; BodySize := BodySize s |}.

Definition getSize (s : t) : result Z :=
  Ok (wrap64 (size (OutputSection.Header (base s)) + BodySize s)).

Definition chunks (s : t) : list InputChunk.t :=
  map OutputSegment.chunk (Segments s).

(** The bytes that follow the header in the output. *)
Definition body (s : t) : bytes := payload (chunks s).

(** Modelled from the spec: [DataSection::finalizeContents] is defined in
    OutputSections.cpp, which is not at hand.  It mirrors the code
    section over the segment list: the body size is the sum of all
    segment sizes. *)
Definition finalizeContents (s : t) : t :=
  let BodySize := totalSize (chunks s) in
  {| base := OutputSection.createHeader BodySize (base s);
     Segments := Segments s;
     DataSectionHeader := DataSectionHeader s;
     BodySize := BodySize |}.

(** Modelled from the spec: [DataSection::writeTo] is defined in
    OutputSections.cpp, which is not at hand; same contract as the code
    section, each segment contributing its header and its raw bytes. *)
Definition writeTo (Buf : bytes) (s : t) : result (t * bytes) :=
  let Offset := OutputSection.Offset (base s) in
  let Header := OutputSection.Header (base s) in
  _ ← assert (negb (Offset =? 0));
  _ ← assert (headerCreated (base s));
  Buf ← memcpy Buf Offset Header;
  Buf ← writeChunks Buf (Offset + size Header) (chunks s);
  mret (s, Buf).

(** Modelled from the spec: defined in OutputSections.cpp, which is not
    at hand. *)
Definition numRelocations (s : t) : Z := totalRelocations (chunks s).

(** Modelled from the spec: defined in OutputSections.cpp, which is not
    at hand.  Records are forwarded per segment in order, with offsets
    relative to the data-section body. *)
Definition writeRelocations {policy : BufferPolicy} {format : RelocFormat}
    (OS : raw_ostream.t) (s : t) : raw_ostream.t :=
  writeAllRelocations OS 0 (chunks s).

End DataSection.

(** ** class CustomSection *)

Module CustomSection.

Record t := mk {
  base : OutputSection.t;
  PayloadSize : Z;             (* size_t PayloadSize = 0 *)
  InputSections : list InputChunk.t;
  NameData : bytes
}.

Definition new (Name : string) (InputSections : list InputChunk.t) : t :=
  {| base := OutputSection.new WASM_SEC_CUSTOM Name; PayloadSize := 0;
     InputSections := InputSections; NameData := [] |}.

Definition setBase (b : OutputSection.t) (s : t) : t :=
  {| base := b; PayloadSize := PayloadSize s;
     InputSections := InputSections s; NameData := NameData s |}.

Definition getSize (s : t) : result Z :=
  Ok (wrap64 (wrap64 (size (OutputSection.Header (base s)) + size (NameData s))
              + PayloadSize s)).

(** The bytes that follow the header in the output. *)
Definition body (s : t) : bytes := NameData s ++ payload (InputSections s).

(** Modelled from the spec: [CustomSection::finalizeContents] is defined
    in OutputSections.cpp, which is not at hand.  The name is written
    once, as a length-prefixed string, as the leading body content; the
    payload size is the sum of the fragment sizes and does not count the
    name; the header is computed from the whole body. *)
Definition finalizeContents (s : t) : t :=
  let Name := list_byte_of_string (OutputSection.Name (base s)) in
  let NameData := encodeULEB128 (size Name) ++ Name in
  let PayloadSize := totalSize (InputSections s) in
  {| base := OutputSection.createHeader (wrap64 (PayloadSize + size NameData)) (base s);
     PayloadSize := PayloadSize;
     InputSections := InputSections s;
     NameData := NameData |}.

(** Modelled from the spec: [CustomSection::writeTo] is defined in
    OutputSections.cpp, which is not at hand; same contract as the code
    section: header, then the name, then each fragment's payload in list
    order. *)
Definition writeTo (Buf : bytes) (s : t) : result (t * bytes) :=
  let Offset := OutputSection.Offset (base s) in
  let Header := OutputSection.Header (base s) in
  _ ← assert (negb (Offset =? 0));
  _ ← assert (headerCreated (base s));
  Buf ← memcpy Buf Offset Header;
  Buf ← memcpy Buf (Offset + size Header) (NameData s);
  Buf ← writeChunks Buf (Offset + size Header + size (NameData s)) (InputSections s);
  mret (s, Buf).

(** Modelled from the spec: defined in OutputSections.cpp, which is not
    at hand. *)
Definition numRelocations (s : t) : Z := totalRelocations (InputSections s).

(** Modelled from the spec: defined in OutputSections.cpp, which is not
    at hand.  Records are forwarded per fragment, shifted by the name
    length plus the sizes of the preceding fragments. *)
Definition writeRelocations {policy : BufferPolicy} {format : RelocFormat}
    (OS : raw_ostream.t) (s : t) : raw_ostream.t :=
  writeAllRelocations OS (size (NameData s)) (InputSections s).

End CustomSection.

(** ** The objects behind an [OutputSection *]

    One constructor per class of the header.  A [RelocSection] is a
    [SyntheticSection] together with [Sec], the section it describes, and
    that section's index.  [Sec] is a pointer in the source: the relocation
    section reads its target when [writeBody] runs, and the value kept here
    is the target as it is at that time. *)

Inductive Object : Type :=
| Synthetic (s : SyntheticSection.t)
| Code (s : CodeSection.t)
| Data (s : DataSection.t)
| Custom (s : CustomSection.t)
| Reloc (s : SyntheticSection.t) (Sec : Object) (SectionIndex : Z).

(** The [OutputSection] subobject. *)
Definition base (o : Object) : OutputSection.t :=
  match o with
  | Synthetic s | Reloc s _ _ => SyntheticSection.base s
  | Code s => CodeSection.base s
  | Data s => DataSection.base s
  | Custom s => CustomSection.base s
  end.

Definition setBase (b : OutputSection.t) (o : Object) : Object :=
  match o with
  | Synthetic s => Synthetic (SyntheticSection.setBase b s)
  | Code s => Code (CodeSection.setBase b s)
  | Data s => Data (DataSection.setBase b s)
  | Custom s => Custom (CustomSection.setBase b s)
  | Reloc s Sec SectionIndex => Reloc (SyntheticSection.setBase b s) Sec SectionIndex
  end.

(** [setOffset] is not virtual. *)
Definition setOffset (NewOffset : Z) (o : Object) : Object :=
  setBase (OutputSection.setOffset NewOffset (base o)) o.

(** Which classes declare [numRelocations] and [writeRelocations] with
    [override]. *)
Definition overridesRelocations (o : Object) : bool :=
  match o with
  | Code _ | Data _ | Custom _ => true
  | Synthetic _ | Reloc _ _ _ => false
  end.

(** Virtual dispatch of the two relocation methods. *)
Definition numRelocations (o : Object) : Z :=
  match o with
  | Code s => CodeSection.numRelocations s
  | Data s => DataSection.numRelocations s
  | Custom s => CustomSection.numRelocations s
  | Synthetic _ | Reloc _ _ _ => OutputSection.numRelocations (base o)
  end.

Definition writeRelocations {policy : BufferPolicy} {format : RelocFormat}
    (OS : raw_ostream.t) (o : Object) : raw_ostream.t :=
  match o with
  | Code s => CodeSection.writeRelocations OS s
  | Data s => DataSection.writeRelocations OS s
  | Custom s => CustomSection.writeRelocations OS s
  | Synthetic _ | Reloc _ _ _ => OutputSection.writeRelocations OS (base o)
  end.

(** ** class RelocSection *)

Module RelocSection.

Definition new {policy : BufferPolicy} (Name : string) (Sec : Object) (SectionIndex : Z) : Object :=
  Reloc (SyntheticSection.new WASM_SEC_CUSTOM Name) Sec SectionIndex.

(** Modelled from the spec: [RelocSection::writeBody] is only declared in
    the header; its body is in OutputSections.cpp, which is not at hand.
    It emits the target section index, the relocation count obtained
    from the target, then each relocation record by invoking the
    target's [writeRelocations]. *)
Definition writeBody {policy : BufferPolicy} {format : RelocFormat}
    (Sec : Object) (SectionIndex : Z) (s : SyntheticSection.t) : SyntheticSection.t :=
  let OS := SyntheticSection.getStream s in
  let OS := writeUleb128 OS SectionIndex in
  let OS := writeUleb128 OS (numRelocations Sec) in
  let OS := writeRelocations OS Sec in
  SyntheticSection.setStream OS s.

End RelocSection.

(** ** Virtual dispatch of the remaining methods *)

Definition getSize (o : Object) : result Z :=
  match o with
  | Synthetic s | Reloc s _ _ => SyntheticSection.getSize s
  | Code s => CodeSection.getSize s
  | Data s => DataSection.getSize s
  | Custom s => CustomSection.getSize s
  end.

Definition writeTo (Buf : bytes) (o : Object) : result (Object * bytes) :=
  match o with
  | Synthetic s =>
      '(s, Buf) ← SyntheticSection.writeTo Buf s; mret (Synthetic s, Buf)
  | Reloc s Sec SectionIndex =>
      '(s, Buf) ← SyntheticSection.writeTo Buf s; mret (Reloc s Sec SectionIndex, Buf)
  | Code s => '(s, Buf) ← CodeSection.writeTo Buf s; mret (Code s, Buf)
  | Data s => '(s, Buf) ← DataSection.writeTo Buf s; mret (Data s, Buf)
  | Custom s => '(s, Buf) ← CustomSection.writeTo Buf s; mret (Custom s, Buf)
  end.

Definition finalizeContents {policy : BufferPolicy} {format : RelocFormat} (o : Object) : Object :=
  match o with
  | Synthetic s =>
      Synthetic (SyntheticSection.finalizeContents SyntheticSection.writeBody s)
  | Reloc s Sec SectionIndex =>
      Reloc (SyntheticSection.finalizeContents (RelocSection.writeBody Sec SectionIndex) s)
            Sec SectionIndex
  | Code s => Code (CodeSection.finalizeContents s)
  | Data s => Data (DataSection.finalizeContents s)
  | Custom s => Custom (CustomSection.finalizeContents s)
  end.

(** The bytes an object contributes behind its header. *)
Definition body (o : Object) : bytes :=
  match o with
  | Synthetic s | Reloc s _ _ => SyntheticSection.Body s
  | Code s => CodeSection.body s
  | Data s => DataSection.body s
  | Custom s => CustomSection.body s
  end.

(** Class tests. *)
Definition isCode (o : Object) : bool :=
  match o with Code _ => true | _ => false end.

Definition isReloc (o : Object) : bool :=
  match o with Reloc _ _ _ => true | _ => false end.

Definition isSynthetic (o : Object) : bool :=
  match o with Synthetic _ | Reloc _ _ _ => true | _ => false end.

(** ** A driver calling the methods one after the other

    A call that aborts ends the run; the object is then taken as it was.
    [writeRelocations] is [const] and hands back only the stream. *)

Inductive Operation : Type :=
| CallSetOffset (NewOffset : Z)
| CallFinalizeContents
| CallWriteTo (Buf : bytes)
| CallWriteRelocations (OS : raw_ostream.t).

Definition call {policy : BufferPolicy} {format : RelocFormat}
    (o : Object) (op : Operation) : Object :=
  match op with
  | CallSetOffset NewOffset => setOffset NewOffset o
  | CallFinalizeContents => finalizeContents o
  | CallWriteTo Buf =>
      match writeTo Buf o with
      | Ok (o', _) => o'
      | Abort _ => o
      end
  | CallWriteRelocations OS => let _ := writeRelocations OS o in o
  end.

Definition run {policy : BufferPolicy} {format : RelocFormat}
    (o : Object) (ops : list Operation) : Object :=
  fold_left call ops o.

(** ** The bytes of the relocation records

    What [writeRelocations] sends down the stream, as one byte string. *)

Definition chunkRelocationBytes {format : RelocFormat} (start : Z) (c : InputChunk.t) : bytes :=
  concat (map (fun r => encodeReloc {| reloc_Offset := reloc_Offset r + start;
                                       reloc_Type := reloc_Type r;
                                       reloc_Index := reloc_Index r |})
              (InputChunk.Relocations c)).

Fixpoint allRelocationBytes {format : RelocFormat} (start : Z) (Chunks : list InputChunk.t) : bytes :=
  match Chunks with
  | [] => []
  | c :: rest =>
      chunkRelocationBytes start c ++ allRelocationBytes (start + InputChunk.getSize c) rest
  end.

Definition relocationBytes {format : RelocFormat} (o : Object) : bytes :=
  match o with
  | Code s => allRelocationBytes 0 (CodeSection.Functions s)
  | Data s => allRelocationBytes 0 (DataSection.chunks s)
  | Custom s => allRelocationBytes (size (CustomSection.NameData s)) (CustomSection.InputSections s)
  | Synthetic _ | Reloc _ _ _ => []
  end.

(** What [RelocSection::writeBody] appends to the body. *)
Definition relocBodyBytes {format : RelocFormat} (Sec : Object) (SectionIndex : Z) : bytes :=
  encodeULEB128 SectionIndex ++ encodeULEB128 (numRelocations Sec) ++ relocationBytes Sec.

(** The length-prefixed name a named synthetic section starts with. *)
Definition namePrefix (Name : string) : bytes :=
  if empty Name then []
  else encodeULEB128 (size (list_byte_of_string Name)) ++ list_byte_of_string Name.

(** ** Sample objects *)

Definition sampleFormat : RelocFormat := fun r =>
  encodeULEB128 (reloc_Type r) ++ encodeULEB128 (reloc_Offset r)
    ++ encodeULEB128 (reloc_Index r).

Definition sampleFunction : InputChunk.t :=
  {| InputChunk.data := [Byte.x01; Byte.x02; Byte.x0b];
     InputChunk.Relocations :=
       [{| reloc_Offset := 1; reloc_Type := 0; reloc_Index := 7 |}] |}.

Definition sampleSegment : OutputSegment.t :=
  {| OutputSegment.Header := [Byte.x00; Byte.x41; Byte.x00; Byte.x0b; Byte.x02];
     OutputSegment.data := [Byte.x68; Byte.x69];
     OutputSegment.Relocations := [] |}.

Definition sampleCode : Object := Code (CodeSection.new [sampleFunction; sampleFunction]).
Definition sampleData : Object := Data (DataSection.new [sampleSegment]).
Definition sampleCustom : Object := Custom (CustomSection.new "producers" [sampleFunction]).

Definition sampleBuffer : bytes := repeat Byte.xff 32.

(** A named synthetic section, finalized and then placed at offset 4. *)
Definition sampleSynthetic : SyntheticSection.t :=
  let s := SyntheticSection.finalizeContents SyntheticSection.writeBody
             (SyntheticSection.new (policy := Unbuffered) WASM_SEC_CUSTOM "name") in
  SyntheticSection.setBase (OutputSection.setOffset 4 (SyntheticSection.base s)) s.

(** A relocation section over the finalized sample code section. *)
Definition sampleReloc : Object :=
  RelocSection.new (policy := Unbuffered) "reloc.CODE"
    (finalizeContents (policy := Unbuffered) (format := sampleFormat) sampleCode) 0.

(** ** Vocabulary for the behaviour of [SyntheticSection] in use *)

(** [Buf] with [content] standing at position [o]. *)
Definition written (Buf : bytes) (o : nat) (content : bytes) : bytes :=
  take o Buf ++ content ++ drop (o + length content) Buf.

(** What [SyntheticSection::writeTo] copies: the header, then the body. *)
Definition sectionImage (s : SyntheticSection.t) : bytes :=
  OutputSection.Header (SyntheticSection.base s) ++ SyntheticSection.Body s.

(** [setOffset] on a synthetic section. *)
Definition place (NewOffset : Z) (s : SyntheticSection.t) : SyntheticSection.t :=
  SyntheticSection.setBase (OutputSection.setOffset NewOffset (SyntheticSection.base s)) s.

(** [getStream() << data]: a user of the section writes to its stream. *)
Definition streamWrite {policy : BufferPolicy}
    (s : SyntheticSection.t) (data : bytes) : SyntheticSection.t :=
  SyntheticSection.setStream (raw_ostream.write data (SyntheticSection.getStream s)) s.

Definition streamWrites {policy : BufferPolicy}
    (s : SyntheticSection.t) (chunks : list bytes) : SyntheticSection.t :=
  fold_left streamWrite chunks s.

(** A second named synthetic section, finalized and placed right behind
    [sampleSynthetic]. *)
Definition sampleSynthetic2 : SyntheticSection.t :=
  place 11 (SyntheticSection.finalizeContents SyntheticSection.writeBody
              (SyntheticSection.new (policy := FullyBuffered) WASM_SEC_CUSTOM "ab")).
(** * Properties *)

#[local] Arguments encodeULEB128 : simpl never.
#[local] Arguments wrap64 : simpl never.
#[local] Arguments wrap32 : simpl never.
#[local] Arguments size : simpl never.

(** ** Sizes and wrap-around *)

Lemma size_nonneg (s : bytes) : 0 <= size s.
Proof. unfold size; lia. Qed.

Lemma size_app (a b : bytes) : size (a ++ b) = size a + size b.
Proof. unfold size. rewrite length_app. lia. Qed.

Lemma size_nil : size [] = 0.
Proof. reflexivity. Qed.

Lemma wrap64_small (z : Z) : 0 <= z < 2 ^ 64 -> wrap64 z = z.
Proof. intros H. unfold wrap64. now apply Z.mod_small. Qed.

Lemma wrap32_small (z : Z) : 0 <= z < 2 ^ 32 -> wrap32 z = z.
Proof. intros H. unfold wrap32. now apply Z.mod_small. Qed.

(** *** Bit-level facts behind the codec *)

Lemma land_7f (v : Z) : Z.land v 0x7f = v mod 128.
Proof. change 0x7f with (Z.ones 7). rewrite Z.land_ones by lia. reflexivity. Qed.

Lemma shiftr_7 (v : Z) : Z.shiftr v 7 = v / 128.
Proof. rewrite Z.shiftr_div_pow2 by lia. reflexivity. Qed.

Lemma shiftl_7 (v : Z) : Z.shiftl v 7 = v * 128.
Proof. rewrite Z.shiftl_mul_pow2 by lia. reflexivity. Qed.

Lemma land_low_high (a x : Z) : 0 <= a < 128 -> Z.land a (x * 128) = 0.
Proof.
  intros Ha. apply Z.bits_inj'. intros n Hn.
  rewrite Z.land_spec, Z.bits_0.
  destruct (Z.lt_ge_cases n 7) as [Hlt | Hge].
  - rewrite <- shiftl_7, Z.shiftl_spec_low by lia. apply andb_false_r.
  - replace a with (a mod 2 ^ 7) by (apply Z.mod_small; lia).
    rewrite Z.mod_pow2_bits_high by lia. reflexivity.
Qed.

Lemma lor_low_high (a x : Z) : 0 <= a < 128 -> Z.lor a (x * 128) = a + x * 128.
Proof. intros Ha. symmetry. apply Z.add_nocarry_lor. now apply land_low_high. Qed.

Lemma lor_80 (a : Z) : 0 <= a < 128 -> Z.lor a 0x80 = a + 128.
Proof. intros Ha. exact (lor_low_high a 1 Ha). Qed.

Lemma testbit7_low (a : Z) : 0 <= a < 128 -> Z.testbit a 7 = false.
Proof.
  intros Ha. replace a with (a mod 2 ^ 7) by (apply Z.mod_small; lia).
  apply Z.mod_pow2_bits_high. lia.
Qed.

Lemma testbit7_high (a : Z) : 0 <= a < 128 -> Z.testbit (a + 128) 7 = true.
Proof.
  intros Ha. rewrite <- (lor_80 a Ha), Z.lor_spec, (testbit7_low a Ha).
  reflexivity.
Qed.

Lemma unsigned_of_small (z : Z) : 0 <= z < 256 -> byte.unsigned (byte.of_Z z) = z.
Proof.
  intros Hz. rewrite byte.unsigned_of_Z. unfold byte.wrap.
  apply Z.mod_small. lia.
Qed.

(** *** Round trip *)

Lemma decode_encode_loop (fuel : nat) :
  forall (v : Z) (rest : bytes),
    0 <= v < 2 ^ (7 * Z.of_nat (S fuel)) ->
    decodeULEB128 (encodeULEB128_loop (S fuel) v ++ rest) = Some (v, rest).
Proof.
  induction fuel as [| fuel IH]; intros v rest Hv.
  - change (2 ^ (7 * Z.of_nat 1)) with 128 in Hv.
    cbn [encodeULEB128_loop]. rewrite shiftr_7, land_7f.
    rewrite Z.div_small, Z.mod_small by lia. cbn [Z.eqb app decodeULEB128].
    rewrite unsigned_of_small by lia. now rewrite testbit7_low by lia.
  - remember (S fuel) as k eqn:Hk.
    cbn [encodeULEB128_loop]. rewrite shiftr_7, land_7f.
    pose proof (Z.mod_pos_bound v 128 ltac:(lia)) as Hlow.
    pose proof (Z.div_mod v 128 ltac:(lia)) as Hsplit.
    destruct (v / 128 =? 0) eqn:Hq.
    + apply Z.eqb_eq in Hq. cbn [app decodeULEB128].
      rewrite unsigned_of_small by lia. rewrite testbit7_low by lia.
      do 2 f_equal. lia.
    + apply Z.eqb_neq in Hq. cbn [app decodeULEB128].
      rewrite lor_80 by lia. rewrite unsigned_of_small by lia.
      rewrite testbit7_high by lia.
      assert (Hhi : 0 <= v / 128 < 2 ^ (7 * Z.of_nat k)).
      { split; [apply Z.div_pos; lia |].
        apply Z.div_lt_upper_bound; [lia |].
        replace (7 * Z.of_nat (S k)) with (7 + 7 * Z.of_nat k) in Hv by lia.
        rewrite Z.pow_add_r in Hv by lia. change (2 ^ 7) with 128 in Hv. lia. }
      subst k. rewrite (IH _ rest Hhi).
      rewrite <- (lor_80 (v mod 128)) by lia.
      rewrite land_7f, shiftl_7.
      rewrite lor_80 by lia.
      replace ((v mod 128 + 128) mod 128) with (v mod 128)
        by (rewrite <- Z.add_mod_idemp_r, Z.mod_same, Z.add_0_r, Z.mod_mod; lia).
      rewrite lor_low_high by lia. do 2 f_equal. lia.
Qed.

Lemma decode_encodeULEB128 (v : Z) (rest : bytes) :
  decodeULEB128 (encodeULEB128 v ++ rest) = Some (wrap64 v, rest).
Proof.
  unfold encodeULEB128, ULEB_ROUNDS. apply decode_encode_loop.
  pose proof (Z.mod_pos_bound v (2 ^ 64) ltac:(lia)) as H. unfold wrap64.
  change (2 ^ (7 * Z.of_nat 10)) with (2 ^ 64 * 64). lia.
Qed.

Lemma encodeULEB128_loop_nonempty (fuel : nat) (v : Z) :
  encodeULEB128_loop (S fuel) v <> [].
Proof. cbn [encodeULEB128_loop]. now destruct (_ =? 0). Qed.

Lemma encodeULEB128_nonempty (v : Z) : encodeULEB128 v <> [].
Proof. apply encodeULEB128_loop_nonempty. Qed.

(** The codec at the boundaries between one, two and three bytes. *)
Example encodeULEB128_boundaries :
  map encodeULEB128 [0; 127; 128; 16383; 16384] =
  [[Byte.x00]; [Byte.x7f]; [Byte.x80; Byte.x01]; [Byte.xff; Byte.x7f];
   [Byte.x80; Byte.x80; Byte.x01]].
Proof. reflexivity. Qed.

Example header_round_trip_boundaries :
  map (fun n => decodeHeader
                  (OutputSection.Header
                     (OutputSection.createHeader n (OutputSection.new WASM_SEC_CODE ""))))
      [0; 127; 128; 16383; 16384]
  = map (fun n => Some (WASM_SEC_CODE, n)) [0; 127; 128; 16383; 16384].
Proof. reflexivity. Qed.

(** ** Streams *)

Section StreamFacts.
Context {policy : BufferPolicy}.

Lemma contents_write (data : bytes) (OS : raw_ostream.t) :
  raw_ostream.contents (raw_ostream.write data OS) = raw_ostream.contents OS ++ data.
Proof.
  unfold raw_ostream.contents, raw_ostream.write; cbn.
  now rewrite <- !app_assoc, take_drop.
Qed.

Lemma contents_flush (OS : raw_ostream.t) :
  raw_ostream.contents (raw_ostream.flush OS) = raw_ostream.contents OS.
Proof. unfold raw_ostream.contents, raw_ostream.flush; cbn. apply app_nil_r. Qed.

Lemma str_flush (OS : raw_ostream.t) :
  raw_ostream.str (raw_ostream.flush OS) = raw_ostream.contents OS.
Proof. reflexivity. Qed.

Lemma contents_writeUleb128 (OS : raw_ostream.t) (n : Z) :
  raw_ostream.contents (writeUleb128 OS n) = raw_ostream.contents OS ++ encodeULEB128 n.
Proof. apply contents_write. Qed.

Lemma contents_writeStr (OS : raw_ostream.t) (s : string) :
  raw_ostream.contents (writeStr OS s) =
  raw_ostream.contents OS
    ++ encodeULEB128 (size (list_byte_of_string s)) ++ list_byte_of_string s.
Proof.
  unfold writeStr. now rewrite contents_write, contents_writeUleb128, <- app_assoc.
Qed.

End StreamFacts.

(** ** The output buffer *)

Lemma memcpy_fits (Buf : bytes) (dst : Z) (src : bytes) :
  0 <= dst -> dst + size src <= size Buf ->
  memcpy Buf dst src =
  Ok (take (Z.to_nat dst) Buf ++ src ++ drop (Z.to_nat dst + length src) Buf).
Proof.
  intros H0 H1. unfold memcpy.
  destruct (Z.leb_spec 0 dst); [| lia].
  destruct (Z.leb_spec (dst + size src) (size Buf)); [reflexivity | lia].
Qed.

Lemma memcpy_never_asserts (Buf : bytes) (dst : Z) (src : bytes) :
  memcpy Buf dst src <> Abort AssertionFailed.
Proof. unfold memcpy. now destruct (_ && _). Qed.

Lemma memcpy_length (Buf Buf' : bytes) (dst : Z) (src : bytes) :
  memcpy Buf dst src = Ok Buf' -> length Buf' = length Buf.
Proof.
  unfold memcpy, size.
  destruct (Z.leb_spec 0 dst); [| discriminate].
  destruct (Z.leb_spec (dst + Z.of_nat (length src)) (Z.of_nat (length Buf)));
    [| discriminate].
  cbn. intros [= <-].
  rewrite !length_app, length_take, length_drop. lia.
Qed.

Lemma writeChunks_never_asserts (Chunks : list InputChunk.t) :
  forall (Buf : bytes) (pos : Z), writeChunks Buf pos Chunks <> Abort AssertionFailed.
Proof.
  induction Chunks as [| c rest IH]; intros Buf pos; cbn; [discriminate |].
  pose proof (memcpy_never_asserts Buf pos (InputChunk.data c)) as Hm.
  destruct (memcpy Buf pos (InputChunk.data c)); cbn; [apply IH | exact Hm].
Qed.

(** ** The loops over fragments *)

Lemma wrap64_idemp_add (a b : Z) : wrap64 (wrap64 a + b) = wrap64 (a + b).
Proof. unfold wrap64. apply Z.add_mod_idemp_l. lia. Qed.

Lemma payload_cons (c : InputChunk.t) (rest : list InputChunk.t) :
  payload (c :: rest) = InputChunk.data c ++ payload rest.
Proof. reflexivity. Qed.

Lemma totalSize_from (Chunks : list InputChunk.t) :
  forall a : Z,
    fold_left (fun Size c => wrap64 (Size + InputChunk.getSize c)) Chunks (wrap64 a)
    = wrap64 (a + size (payload Chunks)).
Proof.
  induction Chunks as [| c rest IH]; intros a; cbn [fold_left].
  - unfold payload; cbn. now rewrite size_nil, Z.add_0_r.
  - rewrite wrap64_idemp_add, IH, payload_cons, size_app.
    unfold InputChunk.getSize. f_equal. lia.
Qed.

Lemma totalSize_payload (Chunks : list InputChunk.t) :
  totalSize Chunks = wrap64 (size (payload Chunks)).
Proof. exact (totalSize_from Chunks 0). Qed.

(** The sum of the fragment sizes, without wrap-around. *)
Lemma size_payload (Chunks : list InputChunk.t) :
  size (payload Chunks) = foldr Z.add 0 (map InputChunk.getSize Chunks).
Proof.
  induction Chunks as [| c rest IH]; [reflexivity |].
  rewrite payload_cons, size_app, IH. reflexivity.
Qed.

(** ** Sizes after finalize *)

Lemma SyntheticSection_getSize_fits (s : SyntheticSection.t) :
  size (OutputSection.Header (SyntheticSection.base s)) + size (SyntheticSection.Body s) < 2 ^ 64 ->
  SyntheticSection.getSize s =
  Ok (size (OutputSection.Header (SyntheticSection.base s)) + size (SyntheticSection.Body s)).
Proof.
  intros Hfit. unfold SyntheticSection.getSize. f_equal. apply wrap64_small.
  pose proof (size_nonneg (OutputSection.Header (SyntheticSection.base s))).
  pose proof (size_nonneg (SyntheticSection.Body s)). lia.
Qed.

Lemma CodeSection_getSize_finalized (s : CodeSection.t) :
  let s' := CodeSection.finalizeContents s in
  size (OutputSection.Header (CodeSection.base s')) + size (CodeSection.body s') < 2 ^ 64 ->
  CodeSection.body s' <> [] ->
  CodeSection.getSize s' =
  Ok (size (OutputSection.Header (CodeSection.base s')) + size (CodeSection.body s')).
Proof.
  cbn zeta. unfold CodeSection.getSize, CodeSection.body. cbn [CodeSection.finalizeContents
    CodeSection.base CodeSection.BodySize CodeSection.Functions].
  set (H := OutputSection.Header _). set (P := payload (CodeSection.Functions s)).
  clearbody H. intros Hfit Hne.
  pose proof (size_nonneg H). pose proof (size_nonneg P).
  rewrite totalSize_payload. fold P. rewrite (wrap64_small (size P)) by lia.
  assert (size P <> 0) as Hnz by (destruct P; [congruence | unfold size; cbn; lia]).
  apply Z.eqb_neq in Hnz. rewrite Hnz. cbn [negb assert mbind result_bind].
  unfold mret, result_ret. f_equal. apply wrap64_small. lia.
Qed.

Lemma DataSection_getSize_finalized (s : DataSection.t) :
  let s' := DataSection.finalizeContents s in
  size (OutputSection.Header (DataSection.base s')) + size (DataSection.body s') < 2 ^ 64 ->
  DataSection.getSize s' =
  Ok (size (OutputSection.Header (DataSection.base s')) + size (DataSection.body s')).
Proof.
  cbn zeta. unfold DataSection.getSize, DataSection.body, DataSection.chunks.
  cbn [DataSection.finalizeContents DataSection.base DataSection.BodySize DataSection.Segments].
  fold (DataSection.chunks s).
  set (H := OutputSection.Header _). set (P := payload (DataSection.chunks s)).
  clearbody H. intros Hfit.
  pose proof (size_nonneg H). pose proof (size_nonneg P).
  rewrite totalSize_payload. fold P. rewrite (wrap64_small (size P)) by lia.
  f_equal. apply wrap64_small. lia.
Qed.

Lemma CustomSection_getSize_finalized (s : CustomSection.t) :
  let s' := CustomSection.finalizeContents s in
  size (OutputSection.Header (CustomSection.base s')) + size (CustomSection.NameData s')
    + size (payload (CustomSection.InputSections s)) < 2 ^ 64 ->
  CustomSection.PayloadSize s' = size (payload (CustomSection.InputSections s)) /\
  CustomSection.getSize s' =
  Ok (size (OutputSection.Header (CustomSection.base s')) + size (CustomSection.NameData s')
      + CustomSection.PayloadSize s').
Proof.
  cbn zeta. unfold CustomSection.getSize.
  cbn [CustomSection.finalizeContents CustomSection.base CustomSection.PayloadSize
       CustomSection.NameData CustomSection.InputSections].
  set (H := OutputSection.Header _). set (N := encodeULEB128 _ ++ _).
  set (P := payload (CustomSection.InputSections s)).
  clearbody H N. intros Hfit.
  pose proof (size_nonneg H). pose proof (size_nonneg P). pose proof (size_nonneg N).
  rewrite totalSize_payload. fold P. rewrite (wrap64_small (size P)) by lia.
  split; [reflexivity |].
  f_equal. rewrite (wrap64_small (size H + size N)) by lia. apply wrap64_small. lia.
Qed.

(** C1 (as amended).  After finalize, [getSize] is the length of the header
    plus the length of the body, for the synthetic, data, custom and
    relocation sections whether the body is empty or not, and for the code
    section when its body is not empty; the sum is assumed to fit a
    [size_t]. *)
Theorem C1_size_after_finalize {policy : BufferPolicy} {format : RelocFormat} (o : Object) :
  let o' := finalizeContents o in
  size (OutputSection.Header (base o')) + size (body o') < 2 ^ 64 ->
  (isCode o = true -> body o' <> []) ->
  getSize o' = Ok (size (OutputSection.Header (base o')) + size (body o')).
Proof.
  cbn zeta. destruct o as [s | s | s | s | s Sec Idx];
    cbn [finalizeContents getSize base body isCode]; intros Hfit Hcode.
  - now apply SyntheticSection_getSize_fits.
  - apply CodeSection_getSize_finalized; auto.
  - now apply DataSection_getSize_finalized.
  - unfold CustomSection.body in *. rewrite size_app in *.
    cbn [CustomSection.finalizeContents CustomSection.InputSections] in Hfit.
    destruct (CustomSection_getSize_finalized s) as [HP ->].
    + cbn zeta. lia.
    + rewrite HP. f_equal.
      cbn [CustomSection.finalizeContents CustomSection.InputSections]. lia.
  - now apply SyntheticSection_getSize_fits.
Qed.

(** C1, the claim as written fails on a code section without functions:
    finalize caches a body size of zero, and [getSize] asserts on it. *)
Lemma C1_empty_code_section :
  let s := CodeSection.finalizeContents (CodeSection.new []) in
  CodeSection.body s = [] /\
  getSize (Code s) = Abort AssertionFailed /\
  getSize (Code s) <> Ok (size (OutputSection.Header (CodeSection.base s)) + size (CodeSection.body s)).
Proof. cbn zeta. split; [reflexivity |]. split; [reflexivity | discriminate]. Qed.

Lemma C1_size_after_finalize_witness :
  getSize (finalizeContents (policy := Unbuffered) (format := sampleFormat) sampleCode)
  = Ok 8.
Proof.
  apply (C1_size_after_finalize (policy := Unbuffered) (format := sampleFormat) sampleCode).
  - vm_compute. reflexivity.
  - intros _. vm_compute. discriminate.
Defined.

(** ** What the methods assert *)

Lemma bind_asserts {A B} (r : result A) (k : A -> result B) :
  r ≫= k = Abort AssertionFailed ->
  r = Abort AssertionFailed \/ exists a, r = Ok a /\ k a = Abort AssertionFailed.
Proof. destruct r as [a | f]; cbn; intros E; [right; eauto | left; congruence]. Qed.

Ltac split_bind E :=
  apply bind_asserts in E; destruct E as [E | (? & ? & E)].

Lemma SyntheticSection_writeTo_asserts (Buf : bytes) (s : SyntheticSection.t) :
  SyntheticSection.writeTo Buf s = Abort AssertionFailed <->
  OutputSection.Offset (SyntheticSection.base s) = 0.
Proof.
  unfold SyntheticSection.writeTo.
  destruct (Z.eqb_spec (OutputSection.Offset (SyntheticSection.base s)) 0) as [E0 | E0];
    cbn [negb assert mbind result_bind].
  - tauto.
  - split; [| contradiction]. intros E. exfalso.
    split_bind E; [now apply memcpy_never_asserts in E |].
    split_bind E; [now apply memcpy_never_asserts in E | discriminate].
Qed.

Lemma fragment_writeTo_asserts (Buf : bytes) (b : OutputSection.t)
    (k : bytes -> result bytes) {S : Type} (s : S) :
  (forall B, k B <> Abort AssertionFailed) ->
  (_ ← assert (negb (OutputSection.Offset b =? 0));
   _ ← assert (headerCreated b);
   Buf ← memcpy Buf (OutputSection.Offset b) (OutputSection.Header b);
   Buf ← k Buf;
   mret (s, Buf)) = Abort AssertionFailed <->
  OutputSection.Offset b = 0 \/ headerCreated b = false.
Proof.
  intros Hk.
  destruct (Z.eqb_spec (OutputSection.Offset b) 0) as [E0 | E0];
    cbn [negb assert mbind result_bind]; [tauto |].
  destruct (headerCreated b); cbn [assert mbind result_bind]; [| tauto].
  split; [| intros [? | ?]; [contradiction | discriminate]].
  intros E. exfalso.
  split_bind E; [now apply memcpy_never_asserts in E |].
  split_bind E; [now apply Hk in E | discriminate].
Qed.

Lemma lift_asserts {A B} (r : result (A * bytes)) (f : A -> B) :
  ('(s, Buf) ← r; mret (f s, Buf)) = Abort AssertionFailed <-> r = Abort AssertionFailed.
Proof. destruct r as [[a B'] | e]; cbn; split; (discriminate || congruence). Qed.

(** C2 (as amended).  Every section rejects a write at offset zero with an
    assertion.  For a synthetic or relocation section that is the only
    check: whether finalize has run is not looked at.  The code, data and
    custom sections also reject a write while no header has been created. *)
Theorem C2_writeTo_asserts (Buf : bytes) (o : Object) :
  writeTo Buf o = Abort AssertionFailed <->
  OutputSection.Offset (base o) = 0 \/
  (isSynthetic o = false /\ headerCreated (base o) = false).
Proof.
  destruct o as [s | s | s | s | s Sec Idx]; cbn [writeTo base isSynthetic];
    rewrite lift_asserts.
  - rewrite SyntheticSection_writeTo_asserts. intuition discriminate.
  - unfold CodeSection.writeTo. rewrite fragment_writeTo_asserts; [tauto |].
    intros B. apply writeChunks_never_asserts.
  - unfold DataSection.writeTo. rewrite fragment_writeTo_asserts; [tauto |].
    intros B. apply writeChunks_never_asserts.
  - unfold CustomSection.writeTo.
    destruct (Z.eqb_spec (OutputSection.Offset (CustomSection.base s)) 0) as [E0 | E0];
      cbn [negb assert mbind result_bind]; [tauto |].
    destruct (headerCreated (CustomSection.base s));
      cbn [assert mbind result_bind]; [| tauto].
    split; [| intros [? | [_ ?]]; [contradiction | discriminate]].
    intros E. exfalso.
    split_bind E; [now apply memcpy_never_asserts in E |].
    split_bind E; [now apply memcpy_never_asserts in E |].
    split_bind E; [now apply writeChunks_never_asserts in E | discriminate].
  - rewrite SyntheticSection_writeTo_asserts. intuition discriminate.
Qed.

(** C2, the claim as written fails on a synthetic section that was given an
    offset but never finalized: [writeTo] returns normally. *)
Lemma C2_unfinalized_write_succeeds :
  let o := setOffset 1 (Synthetic (SyntheticSection.new (policy := FullyBuffered)
                                     WASM_SEC_CUSTOM "")) in
  OutputSection.Header (base o) = [] /\
  writeTo sampleBuffer o = Ok (o, sampleBuffer).
Proof. cbn zeta. split; reflexivity. Qed.

Lemma C2_writeTo_asserts_witness :
  writeTo sampleBuffer sampleCode = Abort AssertionFailed.
Proof.
  apply (C2_writeTo_asserts sampleBuffer sampleCode). left. reflexivity.
Defined.

(** C3, the claim as written fails on freshly constructed data, custom and
    synthetic sections: [getSize] returns zero before any finalize. *)
Lemma C3_unfinalized_getSize_returns :
  getSize sampleData = Ok 0 /\
  getSize sampleCustom = Ok 0 /\
  getSize (Synthetic (SyntheticSection.new (policy := FullyBuffered) WASM_SEC_CUSTOM "")) = Ok 0.
Proof. repeat split. Qed.

(** ** What [SyntheticSection::writeTo] leaves in the buffer *)

Lemma memcpy_twice (Buf : bytes) (off : Z) (Header Body : bytes) :
  0 <= off -> off + size Header + size Body <= size Buf ->
  (Buf1 ← memcpy Buf off Header; memcpy Buf1 (off + size Header) Body) =
  Ok (take (Z.to_nat off) Buf ++ Header ++ Body
        ++ drop (Z.to_nat off + length Header + length Body) Buf).
Proof.
  intros H0 Hfit. unfold size in *.
  rewrite memcpy_fits by (unfold size; lia). cbn [mbind result_bind].
  set (o := Z.to_nat off).
  assert (Ho : length (take o Buf) = o) by (apply length_take_le; lia).
  rewrite memcpy_fits.
  - f_equal.
    replace (Z.to_nat (off + Z.of_nat (length Header))) with (o + length Header)%nat by lia.
    rewrite (app_assoc (take o Buf) Header).
    rewrite take_app_length' by (rewrite length_app; lia).
    rewrite drop_app_add' by (rewrite length_app; lia).
    rewrite drop_drop, <- app_assoc. reflexivity.
  - lia.
  - unfold size. rewrite !length_app, length_drop, Ho. lia.
Qed.

Section WrittenImage.
Variables (Buf Header Body : bytes) (o : nat).
Hypothesis Hfit : (o + length Header + length Body <= length Buf)%nat.

Let image : bytes :=
  take o Buf ++ Header ++ Body ++ drop (o + length Header + length Body) Buf.

Lemma image_length : length image = length Buf.
Proof.
  unfold image. rewrite !length_app, length_take_le, length_drop by lia. lia.
Qed.

Lemma image_header (i : nat) :
  (i < length Header)%nat -> image !! (o + i)%nat = Header !! i.
Proof.
  intros Hi. unfold image.
  rewrite lookup_app_r by (rewrite length_take_le; lia).
  rewrite length_take_le by lia.
  rewrite lookup_app_l by lia. f_equal. lia.
Qed.

Lemma image_body (i : nat) :
  (i < length Body)%nat -> image !! (o + length Header + i)%nat = Body !! i.
Proof.
  intros Hi. unfold image.
  rewrite lookup_app_r by (rewrite length_take_le; lia).
  rewrite length_take_le by lia.
  rewrite lookup_app_r by lia.
  rewrite lookup_app_l by lia. f_equal. lia.
Qed.

Lemma image_outside (i : nat) :
  (i < o \/ o + length Header + length Body <= i)%nat -> image !! i = Buf !! i.
Proof.
  intros [Hi | Hi]; unfold image.
  - rewrite lookup_app_l by (rewrite length_take_le; lia).
    now apply lookup_take_lt.
  - rewrite lookup_app_r by (rewrite length_take_le; lia).
    rewrite length_take_le by lia.
    rewrite lookup_app_r by lia.
    rewrite lookup_app_r by lia.
    rewrite lookup_drop. f_equal. lia.
Qed.

End WrittenImage.

(** C4.  With a non-zero offset and a buffer that holds the range, [writeTo]
    of a synthetic section returns a buffer of the same length in which the
    header bytes stand at [Offset, Offset + |Header|), the body bytes right
    behind them up to [Offset + getSize()), and every other position is as
    it was; the section itself is unchanged. *)
Theorem C4_writeTo_image (Buf : bytes) (s : SyntheticSection.t) :
  let Offset := OutputSection.Offset (SyntheticSection.base s) in
  let Header := OutputSection.Header (SyntheticSection.base s) in
  let Body := SyntheticSection.Body s in
  let o := Z.to_nat Offset in
  0 < Offset ->
  Offset + size Header + size Body <= size Buf ->
  size Buf < 2 ^ 64 ->
  exists Buf' : bytes,
    SyntheticSection.writeTo Buf s = Ok (s, Buf') /\
    SyntheticSection.getSize s = Ok (size Header + size Body) /\
    length Buf' = length Buf /\
    (forall i : nat, (i < length Header)%nat -> Buf' !! (o + i)%nat = Header !! i) /\
    (forall i : nat, (i < length Body)%nat ->
                     Buf' !! (o + length Header + i)%nat = Body !! i) /\
    (forall i : nat, (i < o \/ o + length Header + length Body <= i)%nat ->
                     Buf' !! i = Buf !! i).
Proof.
  cbn zeta. intros Hpos Hfit Hbuf.
  set (Header := OutputSection.Header (SyntheticSection.base s)) in *.
  set (Body := SyntheticSection.Body s) in *.
  set (o := Z.to_nat (OutputSection.Offset (SyntheticSection.base s))).
  pose proof (size_nonneg Header) as HH. pose proof (size_nonneg Body) as HB.
  assert (Hnat : (o + length Header + length Body <= length Buf)%nat)
    by (unfold size in *; lia).
  eexists. split.
  - unfold SyntheticSection.writeTo.
    destruct (Z.eqb_spec (OutputSection.Offset (SyntheticSection.base s)) 0) as [E | _];
      [lia |].
    cbn [negb assert mbind result_bind].
    pose proof (memcpy_twice Buf _ Header Body (Z.lt_le_incl _ _ Hpos) Hfit) as Hm.
    subst Header Body.
    destruct (memcpy Buf _ _) as [Buf1 |]; [| discriminate Hm].
    cbn [mbind result_bind] in Hm |- *. rewrite Hm. reflexivity.
  - split; [apply SyntheticSection_getSize_fits; fold Header Body; lia |].
    split; [now apply image_length |].
    split; [intros i; now apply image_header |].
    split; [intros i; now apply image_body | intros i; now apply image_outside].
Qed.

Lemma C4_writeTo_image_witness :
  exists Buf' : bytes,
    SyntheticSection.writeTo sampleBuffer sampleSynthetic = Ok (sampleSynthetic, Buf') /\
    SyntheticSection.getSize sampleSynthetic = Ok 7 /\
    length Buf' = length sampleBuffer.
Proof.
  destruct (C4_writeTo_image sampleBuffer sampleSynthetic) as (Buf' & Hw & Hs & Hl & _).
  - reflexivity.
  - now vm_compute.
  - reflexivity.
  - exists Buf'. split; [exact Hw |]. split; [exact Hs | exact Hl].
Defined.

(** ** Relocation records on the stream *)

Section RelocationFacts.
Context {policy : BufferPolicy} {format : RelocFormat}.

Lemma contents_writeChunkRelocations (start : Z) (c : InputChunk.t) (OS : raw_ostream.t) :
  raw_ostream.contents (writeChunkRelocations OS start c) =
  raw_ostream.contents OS ++ chunkRelocationBytes start c.
Proof.
  unfold writeChunkRelocations, chunkRelocationBytes.
  generalize dependent OS.
  induction (InputChunk.Relocations c) as [| r rs IH]; intros OS; cbn [fold_left map concat].
  - now rewrite app_nil_r.
  - now rewrite IH, contents_write, <- app_assoc.
Qed.

Lemma contents_writeAllRelocations (Chunks : list InputChunk.t) :
  forall (start : Z) (OS : raw_ostream.t),
    raw_ostream.contents (writeAllRelocations OS start Chunks) =
    raw_ostream.contents OS ++ allRelocationBytes start Chunks.
Proof.
  induction Chunks as [| c rest IH]; intros start OS;
    cbn [writeAllRelocations allRelocationBytes].
  - now rewrite app_nil_r.
  - now rewrite IH, contents_writeChunkRelocations, <- app_assoc.
Qed.

Lemma contents_writeRelocations (o : Object) (OS : raw_ostream.t) :
  raw_ostream.contents (writeRelocations OS o) =
  raw_ostream.contents OS ++ relocationBytes o.
Proof.
  destruct o; cbn [writeRelocations relocationBytes];
    try apply contents_writeAllRelocations;
    unfold OutputSection.writeRelocations; now rewrite app_nil_r.
Qed.

Lemma contents_RelocSection_writeBody (Sec : Object) (Idx : Z) (s : SyntheticSection.t) :
  raw_ostream.contents (SyntheticSection.getStream (RelocSection.writeBody Sec Idx s)) =
  raw_ostream.contents (SyntheticSection.getStream s) ++ relocBodyBytes Sec Idx.
Proof.
  unfold RelocSection.writeBody, relocBodyBytes.
  set (OS := SyntheticSection.getStream s).
  transitivity (raw_ostream.contents
                  (writeRelocations (writeUleb128 (writeUleb128 OS Idx) (numRelocations Sec)) Sec)).
  - now destruct (writeRelocations _ Sec).
  - now rewrite contents_writeRelocations, !contents_writeUleb128, <- !app_assoc.
Qed.

Lemma base_RelocSection_writeBody (Sec : Object) (Idx : Z) (s : SyntheticSection.t) :
  SyntheticSection.base (RelocSection.writeBody Sec Idx s) = SyntheticSection.base s.
Proof. reflexivity. Qed.

End RelocationFacts.

(** ** Construction and finalize of a synthetic section *)

Lemma empty_spec (Name : string) : empty Name = true <-> Name = ""%string.
Proof. apply String.eqb_eq. Qed.

Lemma contents_new {policy : BufferPolicy} (Type_ : Z) (Name : string) :
  raw_ostream.contents (SyntheticSection.getStream (SyntheticSection.new Type_ Name)) =
  namePrefix Name.
Proof.
  unfold SyntheticSection.new, namePrefix.
  destruct (empty Name); cbn [negb]; [reflexivity |].
  set (s0 := SyntheticSection.mk _ _ _).
  transitivity (raw_ostream.contents (writeStr (SyntheticSection.getStream s0) Name)).
  - now destruct (writeStr _ Name).
  - now rewrite contents_writeStr.
Qed.

Lemma base_new {policy : BufferPolicy} (Type_ : Z) (Name : string) :
  SyntheticSection.base (SyntheticSection.new Type_ Name) = OutputSection.new Type_ Name.
Proof. unfold SyntheticSection.new. now destruct (empty Name). Qed.

Lemma Body_finalizeContents (writeBody : SyntheticSection.t -> SyntheticSection.t)
    (s : SyntheticSection.t) :
  SyntheticSection.Body (SyntheticSection.finalizeContents writeBody s) =
  raw_ostream.contents (SyntheticSection.getStream (writeBody s)).
Proof. reflexivity. Qed.

Lemma decodeHeader_createHeader (BodySize : Z) (b : OutputSection.t) :
  decodeHeader (OutputSection.Header (OutputSection.createHeader BodySize b)) =
  Some (byte.wrap (OutputSection.Type_ b), wrap64 BodySize).
Proof.
  cbn [OutputSection.createHeader OutputSection.Header decodeHeader].
  rewrite <- (app_nil_r (encodeULEB128 BodySize)), decode_encodeULEB128.
  now rewrite byte.unsigned_of_Z.
Qed.

(** C3 (as amended).  Only the code section's [getSize] asserts, and it
    asserts that the cached body size is not zero, so it fails on a code
    section that was never finalized.  [getSize] of a synthetic, data,
    custom or relocation section checks nothing and returns, modulo 2^64,
    the header length plus the current body size: [Body.size()] for a
    synthetic or relocation section, the cached [BodySize] for a data
    section, [NameData.size() + PayloadSize] for a custom section; a code
    section whose cached size is not zero returns the header length plus
    that size.  On a freshly constructed data or custom section and on a
    freshly constructed synthetic section without a name this is zero; on
    a freshly constructed named synthetic or relocation section it is the
    length of [Body], which then holds the front part of the
    length-prefixed name that the stream has already handed on. *)
Theorem C3_getSize_asserts (o : Object) :
  (getSize o = Abort AssertionFailed <->
   exists s, o = Code s /\ CodeSection.BodySize s = 0) /\
  (forall Functions, getSize (Code (CodeSection.new Functions)) = Abort AssertionFailed) /\
  match o with
  | Synthetic s | Reloc s _ _ =>
      getSize o = Ok (wrap64 (size (OutputSection.Header (SyntheticSection.base s))
                              + size (SyntheticSection.Body s)))
  | Code s =>
      getSize o = if CodeSection.BodySize s =? 0 then Abort AssertionFailed
                  else Ok (wrap64 (size (OutputSection.Header (CodeSection.base s))
                                   + CodeSection.BodySize s))
  | Data s =>
      getSize o = Ok (wrap64 (size (OutputSection.Header (DataSection.base s))
                              + DataSection.BodySize s))
  | Custom s =>
      getSize o = Ok (wrap64 (size (OutputSection.Header (CustomSection.base s))
                              + size (CustomSection.NameData s)
                              + CustomSection.PayloadSize s))
  end /\
  (forall Segments, getSize (Data (DataSection.new Segments)) = Ok 0) /\
  (forall Name InputSections,
     getSize (Custom (CustomSection.new Name InputSections)) = Ok 0) /\
  (forall (policy : BufferPolicy) (Type_ : Z) (Name : string) (Sec : Object) (Idx : Z),
     let s := SyntheticSection.new Type_ Name in
     let r := SyntheticSection.new WASM_SEC_CUSTOM Name in
     getSize (Synthetic s) = Ok (wrap64 (size (SyntheticSection.Body s))) /\
     getSize (RelocSection.new Name Sec Idx) = Ok (wrap64 (size (SyntheticSection.Body r))) /\
     SyntheticSection.Body s ++ SyntheticSection.BodyOutputStream s =
       (if empty Name then []
        else encodeULEB128 (size (list_byte_of_string Name)) ++ list_byte_of_string Name) /\
     getSize (Synthetic (SyntheticSection.new Type_ "")) = Ok 0).
Proof.
  split; [| split; [reflexivity |]].
  - destruct o as [s | s | s | s | s Sec Idx]; cbn [getSize];
      try (split; [discriminate | intros (? & [=] & _)]).
    unfold CodeSection.getSize.
    destruct (Z.eqb_spec (CodeSection.BodySize s) 0) as [E0 | E0];
      cbn [negb assert mbind result_bind].
    + split; [eauto | reflexivity].
    + split; [discriminate | intros (s' & [= <-] & E); contradiction].
  - split; [| split; [reflexivity | split; [reflexivity |]]].
    + destruct o as [s | s | s | s | s Sec Idx]; cbn [getSize]; try reflexivity.
      * unfold CodeSection.getSize.
        now destruct (CodeSection.BodySize s =? 0).
      * unfold CustomSection.getSize. now rewrite wrap64_idemp_add.
    + intros policy Type_ Name Sec Idx. cbn zeta.
      pose proof (contents_new Type_ Name) as Hc. unfold namePrefix in Hc.
      split; [| split; [| split; [exact Hc | reflexivity]]].
      * cbn [getSize]. unfold SyntheticSection.getSize. now rewrite base_new.
      * cbn [getSize RelocSection.new]. unfold SyntheticSection.getSize.
        now rewrite base_new.
Qed.

(** C5.  [finalizeContents] of a synthetic section runs the [writeBody] in
    force (which does nothing in the base class), then flushes the stream
    into [Body], then creates the header from the length [Body] then has:
    the header is the tag byte of the section type followed by that length,
    and reading it back gives both. *)
Theorem C5_finalize_header (writeBody : SyntheticSection.t -> SyntheticSection.t)
    (s : SyntheticSection.t) :
  let s1 := writeBody s in
  let s' := SyntheticSection.finalizeContents writeBody s in
  SyntheticSection.writeBody s = s /\
  SyntheticSection.Body s' = SyntheticSection.Body s1 ++ SyntheticSection.BodyOutputStream s1 /\
  SyntheticSection.BodyOutputStream s' = [] /\
  OutputSection.Header (SyntheticSection.base s') =
    byte.of_Z (OutputSection.Type_ (SyntheticSection.base s1))
      :: encodeULEB128 (size (SyntheticSection.Body s')) /\
  decodeHeader (OutputSection.Header (SyntheticSection.base s')) =
    Some (byte.wrap (OutputSection.Type_ (SyntheticSection.base s1)),
          wrap64 (size (SyntheticSection.Body s'))).
Proof.
  cbn zeta. repeat split.
  unfold SyntheticSection.finalizeContents.
  cbn [SyntheticSection.setBase SyntheticSection.base].
  apply decodeHeader_createHeader.
Qed.

(** C6.  Right after construction the body stream of a synthetic section
    holds the length-prefixed name when the name is not empty, and nothing
    (with an empty [Body]) when it is.  Whatever is written to the stream
    later stands behind the name, and so does what [writeBody] of a
    relocation section emits: after finalize the body starts with the
    name. *)
Theorem C6_name_written_first {policy : BufferPolicy} {format : RelocFormat}
    (Type_ : Z) (Name : string) :
  let s := SyntheticSection.new Type_ Name in
  let prefix :=
    if empty Name then []
    else encodeULEB128 (size (list_byte_of_string Name)) ++ list_byte_of_string Name in
  raw_ostream.contents (SyntheticSection.getStream s) = prefix /\
  (if empty Name
   then SyntheticSection.Body s = [] /\ SyntheticSection.BodyOutputStream s = []
   else prefix <> []) /\
  (forall data : bytes,
     raw_ostream.contents (raw_ostream.write data (SyntheticSection.getStream s))
     = prefix ++ data) /\
  SyntheticSection.Body (SyntheticSection.finalizeContents SyntheticSection.writeBody s)
  = prefix /\
  (forall (Sec : Object) (SectionIndex : Z),
     SyntheticSection.Body
       (SyntheticSection.finalizeContents (RelocSection.writeBody Sec SectionIndex) s)
     = prefix ++ relocBodyBytes Sec SectionIndex).
Proof.
  cbn zeta. pose proof (contents_new Type_ Name) as Hnew. unfold namePrefix in Hnew.
  split; [exact Hnew |]. split; [| split; [| split]].
  - unfold SyntheticSection.new.
    destruct (empty Name); cbn [negb]; [split; reflexivity |].
    intros E. apply app_eq_nil in E as [E _]. now apply encodeULEB128_nonempty in E.
  - intros data. now rewrite contents_write, Hnew.
  - now rewrite Body_finalizeContents.
  - intros Sec Idx.
    now rewrite Body_finalizeContents, contents_RelocSection_writeBody, Hnew.
Qed.

(** ** Finalizing twice *)

Lemma createHeader_twice (n m : Z) (b : OutputSection.t) :
  OutputSection.createHeader n (OutputSection.createHeader m b) =
  OutputSection.createHeader n b.
Proof. reflexivity. Qed.

Lemma SyntheticSection_finalize_twice (s : SyntheticSection.t) :
  let fin := SyntheticSection.finalizeContents SyntheticSection.writeBody in
  fin (fin s) = fin s.
Proof.
  cbn zeta. destruct s as [b B O].
  unfold SyntheticSection.finalizeContents, SyntheticSection.writeBody,
    SyntheticSection.setBase, SyntheticSection.setStream, SyntheticSection.getStream,
    raw_ostream.flush.
  cbn [SyntheticSection.base SyntheticSection.Body SyntheticSection.BodyOutputStream
       raw_ostream.str raw_ostream.OutBuf].
  now rewrite createHeader_twice, app_nil_r.
Qed.

Lemma relocBodyBytes_nonempty {format : RelocFormat} (Sec : Object) (Idx : Z) :
  relocBodyBytes Sec Idx <> [].
Proof.
  unfold relocBodyBytes. intros E.
  apply app_eq_nil in E as [E _]. now apply encodeULEB128_nonempty in E.
Qed.

(** C7 (as amended).  A second [finalizeContents] leaves a synthetic section
    with the base [writeBody], a code section, a data section and a custom
    section exactly as the first left them.  On a relocation section the
    second call runs [writeBody] again, which appends the index, the count
    and the records once more: the body grows and is no longer the same. *)
Theorem C7_finalize_twice {policy : BufferPolicy} {format : RelocFormat} (o : Object) :
  let o1 := finalizeContents o in
  let o2 := finalizeContents o1 in
  match o with
  | Reloc _ Sec SectionIndex =>
      body o2 = body o1 ++ relocBodyBytes Sec SectionIndex /\ body o2 <> body o1
  | _ => o2 = o1
  end.
Proof.
  cbn zeta. destruct o as [s | s | s | s | s Sec Idx]; cbn [finalizeContents body].
  - f_equal. apply SyntheticSection_finalize_twice.
  - reflexivity.
  - reflexivity.
  - reflexivity.
  - assert (Hgrow :
      SyntheticSection.Body
        (SyntheticSection.finalizeContents (RelocSection.writeBody Sec Idx)
           (SyntheticSection.finalizeContents (RelocSection.writeBody Sec Idx) s))
      = SyntheticSection.Body
          (SyntheticSection.finalizeContents (RelocSection.writeBody Sec Idx) s)
        ++ relocBodyBytes Sec Idx).
    { rewrite (Body_finalizeContents _ (SyntheticSection.finalizeContents _ s)).
      rewrite contents_RelocSection_writeBody. f_equal.
      unfold raw_ostream.contents; cbn. apply app_nil_r. }
    split; [exact Hgrow |].
    rewrite Hgrow. intros E.
    rewrite <- (app_nil_r (SyntheticSection.Body _)) in E at 2.
    apply app_inv_head in E. now apply relocBodyBytes_nonempty in E.
Qed.

(** C7, the claim as written fails on a relocation section: the second
    finalize changes both the body and the header. *)
Lemma C7_reloc_finalize_twice_differs :
  let fin := finalizeContents (policy := Unbuffered) (format := sampleFormat) in
  body (fin (fin sampleReloc)) <> body (fin sampleReloc) /\
  OutputSection.Header (base (fin (fin sampleReloc)))
    <> OutputSection.Header (base (fin sampleReloc)).
Proof. cbn zeta. split; intros E; vm_compute in E; discriminate E. Qed.

(** C8.  After finalize of a custom section, [PayloadSize] is the sum of the
    sizes of the contributing fragments, [NameData] is the length-prefixed
    name and is not counted in it, and [getSize] is the header length plus
    the name-data length plus [PayloadSize]; the sum is assumed to fit a
    [size_t]. *)
Theorem C8_custom_size (s : CustomSection.t) :
  let s' := CustomSection.finalizeContents s in
  let Name := list_byte_of_string (OutputSection.Name (CustomSection.base s)) in
  let fragments := foldr Z.add 0 (map InputChunk.getSize (CustomSection.InputSections s)) in
  size (OutputSection.Header (CustomSection.base s')) + size (CustomSection.NameData s')
    + fragments < 2 ^ 64 ->
  CustomSection.NameData s' = encodeULEB128 (size Name) ++ Name /\
  CustomSection.PayloadSize s' = fragments /\
  CustomSection.getSize s' =
    Ok (size (OutputSection.Header (CustomSection.base s')) + size (CustomSection.NameData s')
        + CustomSection.PayloadSize s').
Proof.
  cbn zeta. rewrite <- size_payload. intros Hfit.
  destruct (CustomSection_getSize_finalized s Hfit) as [HP HS].
  split; [reflexivity |]. split; [exact HP | exact HS].
Qed.

Lemma C8_custom_size_witness :
  CustomSection.getSize
    (CustomSection.finalizeContents (CustomSection.new "producers" [sampleFunction; sampleFunction]))
  = Ok (2 + 10 + 6).
Proof.
  apply (C8_custom_size (CustomSection.new "producers" [sampleFunction; sampleFunction])).
  now vm_compute.
Defined.

(** C9.  The classes that declare the two relocation methods with
    [override] are the code, data and custom sections.  Every other
    section, a relocation section included, runs the defaults:
    [numRelocations] is zero and [writeRelocations] returns the stream as
    it received it. *)
Theorem C9_default_relocations {policy : BufferPolicy} {format : RelocFormat}
    (o : Object) (OS : raw_ostream.t) :
  (overridesRelocations o = true <->
   (exists s, o = Code s) \/ (exists s, o = Data s) \/ (exists s, o = Custom s)) /\
  (overridesRelocations o = false ->
   numRelocations o = 0 /\ writeRelocations OS o = OS).
Proof.
  split.
  - destruct o; cbn [overridesRelocations]; split;
      first [ discriminate
            | intros [(? & E) | [(? & E) | (? & E)]]; discriminate E
            | intros _; reflexivity
            | intros _; solve [eauto 6] ].
  - destruct o; cbn [overridesRelocations]; try discriminate; intros _; split; reflexivity.
Qed.

Lemma C9_default_relocations_witness :
  numRelocations sampleReloc = 0 /\
  writeRelocations (policy := Unbuffered) (format := sampleFormat)
    (raw_ostream.mk [Byte.x01] [Byte.x02]) sampleReloc
  = raw_ostream.mk [Byte.x01] [Byte.x02].
Proof.
  apply (C9_default_relocations (policy := Unbuffered) (format := sampleFormat) sampleReloc).
  reflexivity.
Defined.

(** ** Type and name *)

Lemma setBase_base (o : Object) : setBase (base o) o = o.
Proof. destruct o as [[] | [] | [] | [] | [] ? ?]; reflexivity. Qed.

Lemma base_setBase (b : OutputSection.t) (o : Object) : base (setBase b o) = b.
Proof. destruct o; reflexivity. Qed.

Lemma setBase_setBase (b b' : OutputSection.t) (o : Object) :
  setBase b' (setBase b o) = setBase b' o.
Proof. destruct o; reflexivity. Qed.

Ltac step_writeTo :=
  match goal with
  | |- context [assert ?c] => destruct c
  | |- context [memcpy ?B ?d ?src] => destruct (memcpy B d src)
  | |- context [writeChunks ?B ?p ?cs] => destruct (writeChunks B p cs)
  end;
  cbn [assert mbind result_bind mret result_ret]; try exact I.

Lemma SyntheticSection_writeTo_same (Buf : bytes) (s : SyntheticSection.t) :
  match SyntheticSection.writeTo Buf s with
  | Ok (s', _) => s' = s
  | Abort _ => True
  end.
Proof. unfold SyntheticSection.writeTo. repeat step_writeTo. reflexivity. Qed.

Lemma CodeSection_writeTo_same (Buf : bytes) (s : CodeSection.t) :
  match CodeSection.writeTo Buf s with
  | Ok (s', _) => s' = s
  | Abort _ => True
  end.
Proof. unfold CodeSection.writeTo. repeat step_writeTo. reflexivity. Qed.

Lemma DataSection_writeTo_same (Buf : bytes) (s : DataSection.t) :
  match DataSection.writeTo Buf s with
  | Ok (s', _) => s' = s
  | Abort _ => True
  end.
Proof. unfold DataSection.writeTo. repeat step_writeTo. reflexivity. Qed.

Lemma CustomSection_writeTo_same (Buf : bytes) (s : CustomSection.t) :
  match CustomSection.writeTo Buf s with
  | Ok (s', _) => s' = s
  | Abort _ => True
  end.
Proof. unfold CustomSection.writeTo. repeat step_writeTo. reflexivity. Qed.

Lemma writeTo_same (Buf : bytes) (o : Object) :
  match writeTo Buf o with
  | Ok (o', _) => o' = o
  | Abort _ => True
  end.
Proof.
  destruct o as [s | s | s | s | s Sec Idx]; cbn [writeTo];
    [ pose proof (SyntheticSection_writeTo_same Buf s) as Hs;
      destruct (SyntheticSection.writeTo Buf s) as [[s' B] |]
    | pose proof (CodeSection_writeTo_same Buf s) as Hs;
      destruct (CodeSection.writeTo Buf s) as [[s' B] |]
    | pose proof (DataSection_writeTo_same Buf s) as Hs;
      destruct (DataSection.writeTo Buf s) as [[s' B] |]
    | pose proof (CustomSection_writeTo_same Buf s) as Hs;
      destruct (CustomSection.writeTo Buf s) as [[s' B] |]
    | pose proof (SyntheticSection_writeTo_same Buf s) as Hs;
      destruct (SyntheticSection.writeTo Buf s) as [[s' B] |] ];
    cbn [mbind result_bind mret result_ret]; first [exact I | now subst].
Qed.

Lemma base_finalizeContents {policy : BufferPolicy} {format : RelocFormat} (o : Object) :
  OutputSection.Type_ (base (finalizeContents o)) = OutputSection.Type_ (base o) /\
  OutputSection.Name (base (finalizeContents o)) = OutputSection.Name (base o) /\
  OutputSection.Offset (base (finalizeContents o)) = OutputSection.Offset (base o).
Proof. destruct o; repeat split. Qed.

Lemma call_type_and_name {policy : BufferPolicy} {format : RelocFormat}
    (o : Object) (op : Operation) :
  OutputSection.Type_ (base (call o op)) = OutputSection.Type_ (base o) /\
  OutputSection.Name (base (call o op)) = OutputSection.Name (base o).
Proof.
  destruct op as [NewOffset | | Buf | OS]; cbn [call].
  - unfold setOffset. now rewrite base_setBase.
  - pose proof (base_finalizeContents o). tauto.
  - pose proof (writeTo_same Buf o) as Hw.
    destruct (writeTo Buf o) as [[o' B] |]; [now subst | now split].
  - now split.
Qed.

Lemma run_type_and_name {policy : BufferPolicy} {format : RelocFormat}
    (ops : list Operation) :
  forall o : Object,
    OutputSection.Type_ (base (run o ops)) = OutputSection.Type_ (base o) /\
    OutputSection.Name (base (run o ops)) = OutputSection.Name (base o).
Proof.
  unfold run. induction ops as [| op ops IH]; intros o; cbn [fold_left].
  - now split.
  - destruct (IH (call o op)) as [HT HN], (call_type_and_name o op) as [HT' HN'].
    split; congruence.
Qed.

(** C10.  The constructors set [Type] and [Name]; [setOffset],
    [finalizeContents] and [writeTo] leave both as they are.  [setOffset]
    changes the [Offset] field and nothing else, and a later [setOffset]
    overwrites an earlier one.  ([writeRelocations] is a [const] method: it
    returns a stream and has no section to return.)  Hence [Type] and
    [Name] are the same after any sequence of these calls. *)
Theorem C10_type_and_name_fixed {policy : BufferPolicy} {format : RelocFormat}
    (o : Object) (NewOffset NewOffset' : Z) (Buf : bytes) :
  let Type_ o := OutputSection.Type_ (base o) in
  let Name o := OutputSection.Name (base o) in
  (forall (T : Z) (N : string) (Functions : list InputChunk.t)
          (Segments : list OutputSegment.t) (Sec : Object) (Idx : Z),
     base (Synthetic (SyntheticSection.new T N)) = OutputSection.new T N /\
     base (Code (CodeSection.new Functions)) = OutputSection.new WASM_SEC_CODE "" /\
     base (Data (DataSection.new Segments)) = OutputSection.new WASM_SEC_DATA "" /\
     base (Custom (CustomSection.new N Functions)) = OutputSection.new WASM_SEC_CUSTOM N /\
     base (RelocSection.new N Sec Idx) = OutputSection.new WASM_SEC_CUSTOM N) /\
  (Type_ (setOffset NewOffset o) = Type_ o /\ Name (setOffset NewOffset o) = Name o) /\
  (OutputSection.Offset (base (setOffset NewOffset o)) = NewOffset /\
   OutputSection.Header (base (setOffset NewOffset o)) = OutputSection.Header (base o) /\
   setBase (base o) (setOffset NewOffset o) = o) /\
  setOffset NewOffset' (setOffset NewOffset o) = setOffset NewOffset' o /\
  (Type_ (finalizeContents o) = Type_ o /\ Name (finalizeContents o) = Name o) /\
  match writeTo Buf o with
  | Ok (o', _) => o' = o
  | Abort _ => True
  end /\
  (forall ops : list Operation, Type_ (run o ops) = Type_ o /\ Name (run o ops) = Name o).
Proof.
  cbn zeta.
  assert (Hnew : forall (T : Z) (N : string) (Functions : list InputChunk.t)
                        (Segments : list OutputSegment.t) (Sec : Object) (Idx : Z),
     base (Synthetic (SyntheticSection.new T N)) = OutputSection.new T N /\
     base (Code (CodeSection.new Functions)) = OutputSection.new WASM_SEC_CODE "" /\
     base (Data (DataSection.new Segments)) = OutputSection.new WASM_SEC_DATA "" /\
     base (Custom (CustomSection.new N Functions)) = OutputSection.new WASM_SEC_CUSTOM N /\
     base (RelocSection.new N Sec Idx) = OutputSection.new WASM_SEC_CUSTOM N).
  { intros T N Functions Segments Sec Idx.
    cbn [base RelocSection.new]. rewrite !base_new. repeat split. }
  pose proof (base_finalizeContents o) as (HT & HN & _).
  pose proof (writeTo_same Buf o) as Hw.
  pose proof (fun ops => run_type_and_name ops o) as Hrun.
  unfold setOffset in *.
  rewrite !base_setBase, !setBase_setBase, setBase_base.
  repeat match goal with |- _ /\ _ => split end; auto.
Qed.

(** * Further properties of the code in the header *)

(** ** A buffer with a byte string standing in it *)

Lemma length_written (Buf : bytes) (o : nat) (c : bytes) :
  (o + length c <= length Buf)%nat -> length (written Buf o c) = length Buf.
Proof.
  intros Hfit. unfold written.
  rewrite !length_app, length_take_le, length_drop by lia. lia.
Qed.

Lemma lookup_written (Buf : bytes) (o : nat) (c : bytes) (i : nat) :
  (o + length c <= length Buf)%nat ->
  written Buf o c !! i =
  if bool_decide (o <= i < o + length c)%nat then c !! (i - o)%nat else Buf !! i.
Proof.
  intros Hfit. unfold written.
  assert (Ho : length (take o Buf) = o) by (apply length_take_le; lia).
  case_bool_decide as Hi.
  - rewrite lookup_app_r by lia. rewrite Ho. apply lookup_app_l. lia.
  - destruct (Nat.lt_ge_cases i o) as [Hlt | Hge].
    + rewrite lookup_app_l by lia. now apply lookup_take_lt.
    + rewrite lookup_app_r by lia. rewrite Ho.
      rewrite lookup_app_r by lia. rewrite lookup_drop. f_equal. lia.
Qed.

Lemma written_nil (Buf : bytes) (o : nat) : written Buf o [] = Buf.
Proof. unfold written. cbn. rewrite Nat.add_0_r. apply take_drop. Qed.

Lemma written_twice (Buf : bytes) (o : nat) (c : bytes) :
  (o + length c <= length Buf)%nat ->
  written (written Buf o c) o c = written Buf o c.
Proof.
  intros Hfit. apply list_eq. intros i.
  rewrite (lookup_written (written Buf o c)) by (rewrite length_written; lia).
  case_bool_decide as Hi; [| reflexivity].
  rewrite lookup_written by lia. now rewrite bool_decide_true by lia.
Qed.

Lemma written_commute (Buf : bytes) (o1 o2 : nat) (c1 c2 : bytes) :
  (o1 + length c1 <= length Buf)%nat ->
  (o2 + length c2 <= length Buf)%nat ->
  (o1 + length c1 <= o2 \/ o2 + length c2 <= o1)%nat ->
  written (written Buf o1 c1) o2 c2 = written (written Buf o2 c2) o1 c1.
Proof.
  intros H1 H2 Hdis. apply list_eq. intros i.
  rewrite !lookup_written by (rewrite ?length_written; lia).
  repeat case_bool_decide; first [reflexivity | lia].
Qed.

Lemma read_written (Buf : bytes) (o : nat) (c : bytes) :
  (o + length c <= length Buf)%nat ->
  take (length c) (drop o (written Buf o c)) = c.
Proof.
  intros Hfit. unfold written.
  rewrite drop_app_length' by (symmetry; apply length_take_le; lia).
  apply take_app_length.
Qed.

(** ** [writeTo] when the range lies in the buffer *)

Lemma SyntheticSection_writeTo_fits (Buf : bytes) (s : SyntheticSection.t) :
  let Offset := OutputSection.Offset (SyntheticSection.base s) in
  0 < Offset -> Offset + size (sectionImage s) <= size Buf ->
  SyntheticSection.writeTo Buf s = Ok (s, written Buf (Z.to_nat Offset) (sectionImage s)).
Proof.
  cbn zeta. unfold sectionImage. rewrite size_app. intros Hpos Hfit.
  rewrite Z.add_assoc in Hfit.
  pose proof (memcpy_twice Buf _ _ _ (Z.lt_le_incl _ _ Hpos) Hfit) as Hm.
  unfold SyntheticSection.writeTo.
  destruct (Z.eqb_spec (OutputSection.Offset (SyntheticSection.base s)) 0) as [E | _];
    [lia |].
  cbn [negb assert mbind result_bind].
  destruct (memcpy Buf _ _) as [Buf1 |]; [| discriminate Hm].
  cbn [mbind result_bind] in Hm |- *. rewrite Hm.
  cbn [mbind result_bind mret result_ret]. do 2 f_equal.
  unfold written. now rewrite length_app, <- app_assoc, Nat.add_assoc.
Qed.

Lemma size_sectionImage_nat (s : SyntheticSection.t) (Buf : bytes) (Offset : Z) :
  0 < Offset -> Offset + size (sectionImage s) <= size Buf ->
  (Z.to_nat Offset + length (sectionImage s) <= length Buf)%nat.
Proof. unfold size. lia. Qed.

Lemma memcpy_outside (Buf : bytes) (dst : Z) (src : bytes) :
  ~ (0 <= dst /\ dst + size src <= size Buf) -> memcpy Buf dst src = Abort OutOfBounds.
Proof.
  intros Hout. unfold memcpy.
  destruct (Z.leb_spec 0 dst); [| reflexivity].
  destruct (Z.leb_spec (dst + size src) (size Buf)); [tauto | reflexivity].
Qed.

Lemma memcpy_size (Buf Buf' : bytes) (dst : Z) (src : bytes) :
  memcpy Buf dst src = Ok Buf' -> size Buf' = size Buf.
Proof. intros E. unfold size. f_equal. exact (memcpy_length _ _ _ _ E). Qed.

Lemma SyntheticSection_writeTo_overflows (Buf : bytes) (s : SyntheticSection.t) :
  let Offset := OutputSection.Offset (SyntheticSection.base s) in
  Offset <> 0 ->
  ~ (0 < Offset /\ Offset + size (sectionImage s) <= size Buf) ->
  SyntheticSection.writeTo Buf s = Abort OutOfBounds.
Proof.
  cbn zeta. unfold sectionImage. rewrite size_app. intros Hnz Hout.
  unfold SyntheticSection.writeTo.
  destruct (Z.eqb_spec (OutputSection.Offset (SyntheticSection.base s)) 0) as [E | _];
    [contradiction |].
  cbn [negb assert mbind result_bind].
  pose proof (size_nonneg (SyntheticSection.Body s)) as HB.
  destruct (memcpy Buf _ _) as [Buf1 | f] eqn:E1; cbn [mbind result_bind].
  - rewrite memcpy_outside; [reflexivity |].
    rewrite (memcpy_size _ _ _ _ E1). intros [H0 H1]. apply Hout.
    unfold memcpy in E1.
    destruct (Z.leb_spec 0 (OutputSection.Offset (SyntheticSection.base s)));
      [| discriminate E1].
    lia.
  - unfold memcpy in E1. now destruct (_ && _); inversion E1.
Qed.

Lemma SyntheticSection_writeTo_Ok (Buf Buf' : bytes) (s s' : SyntheticSection.t) :
  let Offset := OutputSection.Offset (SyntheticSection.base s) in
  SyntheticSection.writeTo Buf s = Ok (s', Buf') ->
  0 < Offset /\ Offset + size (sectionImage s) <= size Buf /\
  s' = s /\ Buf' = written Buf (Z.to_nat Offset) (sectionImage s).
Proof.
  cbn zeta. intros E.
  destruct (Z.eq_dec (OutputSection.Offset (SyntheticSection.base s)) 0) as [E0 | E0].
  - apply (SyntheticSection_writeTo_asserts Buf s) in E0. congruence.
  - destruct (Z_lt_dec 0 (OutputSection.Offset (SyntheticSection.base s))) as [Hpos | Hneg];
      [destruct (Z_le_dec (OutputSection.Offset (SyntheticSection.base s)
                           + size (sectionImage s)) (size Buf)) as [Hfit | Hout] |].
    + rewrite SyntheticSection_writeTo_fits in E by assumption.
      injection E as <- <-. auto.
    + rewrite SyntheticSection_writeTo_overflows in E by tauto. discriminate E.
    + rewrite SyntheticSection_writeTo_overflows in E by tauto. discriminate E.
Qed.

(** X1.  Within the defined behaviour of [SyntheticSection::writeTo] (the
    offset is zero, or it is positive and the range of header and body
    lies in the buffer) the call does one of two things: with offset zero
    it asserts, whatever the buffer; otherwise it returns the section as it
    was and the whole buffer in closed form, the bytes before the offset,
    then the header, then the body, then the bytes behind the range.
    Nothing is stated about a range that leaves the buffer, where the
    source's [memcpy] is undefined. *)
Theorem X1_writeTo_in_range (Buf : bytes) (s : SyntheticSection.t) :
  let Offset := OutputSection.Offset (SyntheticSection.base s) in
  let Header := OutputSection.Header (SyntheticSection.base s) in
  let Body := SyntheticSection.Body s in
  Offset = 0 \/ (0 < Offset /\ Offset + size Header + size Body <= size Buf) ->
  SyntheticSection.writeTo Buf s =
  if Offset =? 0 then Abort AssertionFailed
  else Ok (s, take (Z.to_nat Offset) Buf ++ Header ++ Body
                ++ drop (Z.to_nat Offset + length Header + length Body) Buf).
Proof.
  cbn zeta. intros [E0 | [Hpos Hfit]].
  - rewrite E0. now apply SyntheticSection_writeTo_asserts.
  - destruct (Z.eqb_spec (OutputSection.Offset (SyntheticSection.base s)) 0) as [E | _];
      [lia |].
    rewrite SyntheticSection_writeTo_fits;
      [| assumption | unfold sectionImage; rewrite size_app; lia].
    unfold written, sectionImage.
    now rewrite length_app, <- app_assoc, Nat.add_assoc.
Qed.

Lemma X1_writeTo_in_range_witness :
  SyntheticSection.writeTo sampleBuffer sampleSynthetic =
  Ok (sampleSynthetic,
      repeat Byte.xff 4
        ++ [Byte.x00; Byte.x05] ++ [Byte.x04; Byte.x6e; Byte.x61; Byte.x6d; Byte.x65]
        ++ repeat Byte.xff 21).
Proof.
  apply (X1_writeTo_in_range sampleBuffer sampleSynthetic).
  right. split; [reflexivity | now vm_compute].
Defined.

(** X2.  Writing a synthetic section a second time into the buffer the
    first write returned succeeds and changes nothing. *)
Theorem X2_writeTo_twice (Buf Buf' : bytes) (s s' : SyntheticSection.t) :
  SyntheticSection.writeTo Buf s = Ok (s', Buf') ->
  SyntheticSection.writeTo Buf' s' = Ok (s', Buf').
Proof.
  intros E. apply SyntheticSection_writeTo_Ok in E as (Hpos & Hfit & -> & ->).
  pose proof (size_sectionImage_nat s Buf _ Hpos Hfit) as Hnat.
  rewrite SyntheticSection_writeTo_fits.
  - now rewrite written_twice.
  - exact Hpos.
  - unfold size in *. rewrite length_written by exact Hnat. exact Hfit.
Qed.

Lemma X2_writeTo_twice_witness :
  let Buf' := written sampleBuffer 4 (sectionImage sampleSynthetic) in
  SyntheticSection.writeTo Buf' sampleSynthetic = Ok (sampleSynthetic, Buf').
Proof.
  cbn zeta. apply (X2_writeTo_twice sampleBuffer _ sampleSynthetic sampleSynthetic).
  vm_compute. reflexivity.
Defined.

(** X3.  Two synthetic sections whose ranges lie in the buffer and do not
    overlap can be written in either order: both orders succeed and give
    the same buffer, and reading each range back gives that section's
    header followed by its body. *)
Theorem X3_disjoint_writes_commute (Buf : bytes) (s1 s2 : SyntheticSection.t) :
  let o1 := OutputSection.Offset (SyntheticSection.base s1) in
  let o2 := OutputSection.Offset (SyntheticSection.base s2) in
  let n1 := size (sectionImage s1) in
  let n2 := size (sectionImage s2) in
  0 < o1 -> 0 < o2 ->
  o1 + n1 <= size Buf -> o2 + n2 <= size Buf ->
  o1 + n1 <= o2 \/ o2 + n2 <= o1 ->
  exists B1 B2 B12 : bytes,
    SyntheticSection.writeTo Buf s1 = Ok (s1, B1) /\
    SyntheticSection.writeTo Buf s2 = Ok (s2, B2) /\
    SyntheticSection.writeTo B1 s2 = Ok (s2, B12) /\
    SyntheticSection.writeTo B2 s1 = Ok (s1, B12) /\
    take (Z.to_nat n1) (drop (Z.to_nat o1) B12) = sectionImage s1 /\
    take (Z.to_nat n2) (drop (Z.to_nat o2) B12) = sectionImage s2.
Proof.
  cbn zeta. intros Hp1 Hp2 Hf1 Hf2 Hdis.
  pose proof (size_sectionImage_nat s1 Buf _ Hp1 Hf1) as Hn1.
  pose proof (size_sectionImage_nat s2 Buf _ Hp2 Hf2) as Hn2.
  set (o1 := Z.to_nat (OutputSection.Offset (SyntheticSection.base s1))) in *.
  set (o2 := Z.to_nat (OutputSection.Offset (SyntheticSection.base s2))) in *.
  assert (Hd : (o1 + length (sectionImage s1) <= o2 \/ o2 + length (sectionImage s2) <= o1)%nat)
    by (unfold size in *; lia).
  exists (written Buf o1 (sectionImage s1)), (written Buf o2 (sectionImage s2)),
         (written (written Buf o1 (sectionImage s1)) o2 (sectionImage s2)).
  split; [now apply SyntheticSection_writeTo_fits |].
  split; [now apply SyntheticSection_writeTo_fits |].
  split; [apply SyntheticSection_writeTo_fits;
          [assumption | unfold size in *; rewrite length_written by exact Hn1; exact Hf2] |].
  split.
  - rewrite (written_commute Buf o1 o2) by assumption.
    apply SyntheticSection_writeTo_fits;
      [assumption | unfold size in *; rewrite length_written by exact Hn2; exact Hf1].
  - unfold size. rewrite !Nat2Z.id. split.
    + rewrite (written_commute Buf o1 o2) by assumption.
      apply read_written. rewrite length_written by exact Hn2. exact Hn1.
    + apply read_written. rewrite length_written by exact Hn1. exact Hn2.
Qed.

Lemma X3_disjoint_writes_commute_witness :
  exists B12 : bytes,
    take 7 (drop 4 B12) = sectionImage sampleSynthetic /\
    take 5 (drop 11 B12) = sectionImage sampleSynthetic2.
Proof.
  destruct (X3_disjoint_writes_commute sampleBuffer sampleSynthetic sampleSynthetic2)
    as (B1 & B2 & B12 & _ & _ & _ & _ & H1 & H2).
  - reflexivity.
  - reflexivity.
  - now vm_compute.
  - now vm_compute.
  - left. now vm_compute.
  - exists B12. split; [exact H1 | exact H2].
Defined.

Lemma written_adjacent (Buf : bytes) (o : nat) (c1 c2 : bytes) :
  (o + length c1 + length c2 <= length Buf)%nat ->
  written (written Buf o c1) (o + length c1) c2 = written Buf o (c1 ++ c2).
Proof.
  intros Hfit. apply list_eq. intros i.
  rewrite !lookup_written by (rewrite ?length_written, ?length_app; lia).
  rewrite length_app.
  repeat case_bool_decide; try lia; try reflexivity.
  - rewrite lookup_app_r by lia. f_equal. lia.
  - now rewrite lookup_app_l by lia.
Qed.

(** X4.  A synthetic section placed at the offset where its predecessor
    ends (the predecessor's offset plus its [getSize()]) is written right
    behind it: after both writes the buffer holds the first header and
    body, then the second header and body, without a gap, and is otherwise
    as it was. *)
Theorem X4_back_to_back (Buf : bytes) (s1 s2 : SyntheticSection.t) (n1 : Z) :
  let o1 := OutputSection.Offset (SyntheticSection.base s1) in
  0 < o1 ->
  SyntheticSection.getSize s1 = Ok n1 ->
  OutputSection.Offset (SyntheticSection.base s2) = o1 + n1 ->
  o1 + size (sectionImage s1) + size (sectionImage s2) <= size Buf ->
  size Buf < 2 ^ 64 ->
  exists B1 B12 : bytes,
    SyntheticSection.writeTo Buf s1 = Ok (s1, B1) /\
    SyntheticSection.writeTo B1 s2 = Ok (s2, B12) /\
    B12 = written Buf (Z.to_nat o1) (sectionImage s1 ++ sectionImage s2) /\
    take (length (sectionImage s1 ++ sectionImage s2)) (drop (Z.to_nat o1) B12)
    = sectionImage s1 ++ sectionImage s2.
Proof.
  cbn zeta. intros Hpos Hsize Hnext Hfit Hbuf.
  pose proof (size_nonneg (sectionImage s1)) as H1.
  pose proof (size_nonneg (sectionImage s2)) as H2.
  assert (Hn1 : n1 = size (sectionImage s1)).
  { unfold SyntheticSection.getSize in Hsize. injection Hsize as <-.
    unfold sectionImage in *. rewrite !size_app in *. apply wrap64_small. lia. }
  subst n1.
  set (o1 := Z.to_nat (OutputSection.Offset (SyntheticSection.base s1))).
  assert (Hnat : (o1 + length (sectionImage s1) + length (sectionImage s2) <= length Buf)%nat)
    by (unfold size in *; lia).
  exists (written Buf o1 (sectionImage s1)),
         (written Buf o1 (sectionImage s1 ++ sectionImage s2)).
  split; [apply SyntheticSection_writeTo_fits; [assumption | lia] |].
  split; [| split; [reflexivity |]].
  - rewrite SyntheticSection_writeTo_fits.
    + rewrite Hnext.
      replace (Z.to_nat (OutputSection.Offset (SyntheticSection.base s1)
                         + size (sectionImage s1)))
        with (o1 + length (sectionImage s1))%nat by (unfold size; lia).
      now rewrite written_adjacent.
    + lia.
    + unfold size in *. rewrite length_written by lia. lia.
  - apply read_written. rewrite length_app. lia.
Qed.

Lemma X4_back_to_back_witness :
  exists B12 : bytes,
    B12 = written sampleBuffer 4 (sectionImage sampleSynthetic ++ sectionImage sampleSynthetic2).
Proof.
  destruct (X4_back_to_back sampleBuffer sampleSynthetic sampleSynthetic2 7)
    as (B1 & B12 & _ & _ & H & _).
  - reflexivity.
  - reflexivity.
  - reflexivity.
  - now vm_compute.
  - reflexivity.
  - exists B12. exact H.
Defined.

(** X5.  [setOffset] does not change what [getSize] returns, for any of the
    section classes; in particular it neither causes nor cures the code
    section's assertion. *)
Theorem X5_setOffset_keeps_getSize (NewOffset : Z) (o : Object) :
  getSize (setOffset NewOffset o) = getSize o.
Proof. destruct o; reflexivity. Qed.

(** ** Writing to the stream of a synthetic section *)

Section StreamUse.
Context {policy : BufferPolicy}.

Lemma contents_streamWrite (s : SyntheticSection.t) (data : bytes) :
  raw_ostream.contents (SyntheticSection.getStream (streamWrite s data)) =
  raw_ostream.contents (SyntheticSection.getStream s) ++ data.
Proof.
  unfold streamWrite.
  transitivity (raw_ostream.contents
                  (raw_ostream.write data (SyntheticSection.getStream s))).
  - now destruct (raw_ostream.write data _).
  - apply contents_write.
Qed.

Lemma contents_streamWrites (chunks : list bytes) :
  forall s : SyntheticSection.t,
    raw_ostream.contents (SyntheticSection.getStream (streamWrites s chunks)) =
    raw_ostream.contents (SyntheticSection.getStream s) ++ concat chunks.
Proof.
  unfold streamWrites.
  induction chunks as [| d rest IH]; intros s; cbn [fold_left concat].
  - now rewrite app_nil_r.
  - now rewrite IH, contents_streamWrite, <- app_assoc.
Qed.

Lemma base_streamWrites (chunks : list bytes) :
  forall s : SyntheticSection.t,
    SyntheticSection.base (streamWrites s chunks) = SyntheticSection.base s.
Proof.
  unfold streamWrites.
  induction chunks as [| d rest IH]; intros s; cbn [fold_left]; [reflexivity |].
  now rewrite IH.
Qed.

End StreamUse.

Lemma finalizeContents_from_contents (s : SyntheticSection.t) :
  SyntheticSection.finalizeContents SyntheticSection.writeBody s =
  {| SyntheticSection.base :=
       OutputSection.createHeader
         (size (raw_ostream.contents (SyntheticSection.getStream s)))
         (SyntheticSection.base s);
     SyntheticSection.Body := raw_ostream.contents (SyntheticSection.getStream s);
     SyntheticSection.BodyOutputStream := [] |}.
Proof. reflexivity. Qed.

(** X6.  Whatever is written to [getStream()] before [finalizeContents]
    ends up in [Body], behind what the section already held and in the
    order written, and the stream buffer is empty afterwards.  How the
    stream buffers is not observable after finalize: two buffering
    policies give the same section. *)
Theorem X6_stream_then_finalize {policy : BufferPolicy}
    (s : SyntheticSection.t) (chunks : list bytes) :
  let fin := SyntheticSection.finalizeContents SyntheticSection.writeBody in
  let s' := fin (streamWrites s chunks) in
  SyntheticSection.Body s' =
    SyntheticSection.Body s ++ SyntheticSection.BodyOutputStream s ++ concat chunks /\
  SyntheticSection.BodyOutputStream s' = [] /\
  forall policy' : BufferPolicy, fin (streamWrites (policy := policy') s chunks) = s'.
Proof.
  cbn zeta. split; [| split; [reflexivity |]].
  - rewrite Body_finalizeContents. unfold SyntheticSection.writeBody.
    rewrite contents_streamWrites. unfold raw_ostream.contents; cbn.
    now rewrite app_assoc.
  - intros policy'. rewrite !finalizeContents_from_contents.
    now rewrite !contents_streamWrites, !base_streamWrites.
Qed.

(** X7.  A synthetic section that was constructed, written to and finalized
    but never given an offset cannot be written to a buffer: the
    constructor leaves the offset at zero, neither stream writes nor
    finalize change it, and [writeTo] asserts.  Calling [setOffset(0)] does
    not help. *)
Theorem X7_unplaced_section_asserts {policy : BufferPolicy}
    (Type_ : Z) (Name : string) (chunks : list bytes) (Buf : bytes) :
  let s := streamWrites (SyntheticSection.new Type_ Name) chunks in
  let s' := SyntheticSection.finalizeContents SyntheticSection.writeBody s in
  SyntheticSection.writeTo Buf s = Abort AssertionFailed /\
  SyntheticSection.writeTo Buf s' = Abort AssertionFailed /\
  SyntheticSection.writeTo Buf (place 0 s') = Abort AssertionFailed.
Proof.
  cbn zeta. rewrite !SyntheticSection_writeTo_asserts.
  unfold SyntheticSection.finalizeContents, SyntheticSection.writeBody, place;
    cbn [SyntheticSection.setBase SyntheticSection.setStream SyntheticSection.base
         OutputSection.createHeader OutputSection.setOffset OutputSection.Offset].
  rewrite base_streamWrites, base_new. repeat split.
Qed.

(** X8.  Writing a synthetic section whose header and body are both empty
    (a section without a name that was neither written to nor finalized)
    returns the buffer as it was, for every non-zero offset up to the end
    of the buffer. *)
Theorem X8_empty_section_writes_nothing (Buf : bytes) (s : SyntheticSection.t) :
  sectionImage s = [] ->
  0 < OutputSection.Offset (SyntheticSection.base s) <= size Buf ->
  SyntheticSection.writeTo Buf s = Ok (s, Buf).
Proof.
  intros Hempty [Hpos Hin].
  rewrite SyntheticSection_writeTo_fits; rewrite ?Hempty, ?size_nil; try lia.
  now rewrite written_nil.
Qed.

Lemma X8_empty_section_writes_nothing_witness :
  let s := place 32 (SyntheticSection.new (policy := Unbuffered) WASM_SEC_CUSTOM "") in
  SyntheticSection.writeTo sampleBuffer s = Ok (s, sampleBuffer).
Proof.
  cbn zeta. apply X8_empty_section_writes_nothing.
  - reflexivity.
  - now vm_compute.
Defined.
